(** * flight_anom_gr: the detection engine of [flight_anom_gr.py]

    A shallow embedding of the stateful core of the ADS-B monitor: the
    snapshot normaliser, the bounded track history, the three pattern
    detectors, the pairwise proximity classifier, the anomaly classifier
    and the alert cooldown ledger, followed by the properties proved
    about them.

    Numbers.  Python [int] is [Z].  Python [float] is read as a
    rational ([Qc], canonical rationals, so that equality is Leibniz
    equality and every comparison computes).  Arithmetic on floats is
    exact, except at the two places where the rounding of binary64
    decides what the program answers: the correction step of the float
    [%] and the sum [h + 180] of the lawnmower detector, which are
    rounded to the nearest binary64 number ([round64]).  Infinities and
    NaN are not rationals: the normaliser knows them as raw values, the
    engine does not compute with them.  The [math] functions ([sin],
    [cos], [sqrt], [atan2], [radians], [degrees]) and the string parsers
    behind [float(str)] and [int(str)] are section variables; [sqrt] is
    read on the arguments on which [math.sqrt] returns. *)

From Stdlib Require Import QArith Qcanon Qround Qabs Qcabs Lqa.
From Stdlib Require Import ZArith Lia String Ascii DecimalString.
From stdpp Require Import gmap strings list sorting.

Local Open Scope Z_scope.
Local Open Scope string_scope.
Local Open Scope list_scope.

(** ** Rational reading of Python floats *)

Abbreviation float := Qc.

Definition Z2Qc (z : Z) : float := Q2Qc (inject_Z z).

Definition fltb (x y : float) : bool := bool_decide (x < y)%Qc.
Definition fleb (x y : float) : bool := bool_decide (x ≤ y)%Qc.
Definition feqb (x y : float) : bool := bool_decide (x = y).

Definition fabs (x : float) : float := Qcabs x.

(** [int(x)] on a float truncates toward zero. *)
Definition ftrunc (x : float) : Z := Z.quot (Qnum x) (Zpos (Qden x)).

(** [round(x)] with one argument: nearest integer, ties to even. *)
Definition round_half_even (x : float) : Z :=
  let f := Qfloor x in
  let r := (x - Z2Qc f)%Qc in
  let half := Q2Qc (1 # 2) in
  if fltb r half then f
  else if fltb half r then f + 1
  else if Z.even f then f else f + 1.

(** ** Binary64 rounding *)

(** [2 ** e] for an integer exponent. *)
Definition pow2 (e : Z) : float :=
  if (0 <=? e)%Z then Z2Qc (2 ^ e) else (/ Z2Qc (2 ^ (- e)))%Qc.

(** [floor (log2 a)] for a positive [a]. *)
Definition binade (a : float) : Z :=
  let k := (Z.log2 (Qnum a) - Z.log2 (Zpos (Qden a)))%Z in
  if fleb (pow2 k) a then k else (k - 1)%Z.

(** The binary64 number nearest to [x], ties to even: 53 significant
    bits, exponents down to the subnormal range.  A result beyond the
    largest binary64 number would be an infinity, which is outside the
    model. *)
Definition round64 (x : float) : float :=
  if feqb x (Z2Qc 0) then Z2Qc 0
  else
    let a := fabs x in
    let e := Z.max (binade a - 52) (-1074) in
    let r := (Z2Qc (round_half_even (a / pow2 e)%Qc) * pow2 e)%Qc in
    if fltb x (Z2Qc 0) then (- r)%Qc else r.

(** The C [fmod]: the remainder of the division truncated toward zero.
    It has the sign of [x] and is exact in binary64. *)
Definition c_fmod (x m : float) : float :=
  (x - m * Z2Qc (ftrunc (x / m)%Qc))%Qc.

(** [x % m] on floats, as CPython computes it: the C [fmod], to which
    [m] is added when it is not zero and its sign is not that of [m].
    That sum is a binary64 addition and rounds: a tiny negative [x]
    gives [m] itself.  On [x >= 0] and [m > 0] the result is the exact
    remainder.  The modulus is a non-zero literal wherever the engine
    uses [%] (a zero modulus would raise). *)
Definition fmod (x m : float) : float :=
  let r := c_fmod x m in
  if negb (feqb r (Z2Qc 0))
     && negb (Bool.eqb (fltb m (Z2Qc 0)) (fltb r (Z2Qc 0)))
  then round64 (r + m)%Qc
  else r.

(** Python's [min] and [max] of a list return the first extremal
    element; [None] stands for the [ValueError] on an empty list. *)
Definition fmin_list (l : list float) : option float :=
  match l with
  | [] => None
  | x :: l' => Some (foldl (fun m y => if fltb y m then y else m) x l')
  end.

Definition fmax_list (l : list float) : option float :=
  match l with
  | [] => None
  | x :: l' => Some (foldl (fun m y => if fltb m y then y else m) x l')
  end.

Definition fsum (l : list float) : float := foldl Qcplus (Z2Qc 0) l.

(** ** Strings: the parts of [str] the engine uses

    Strings are byte strings (UTF-8).  [strip] and [lower] act on the
    ASCII range, where the telemetry's identifiers live; comparison is
    byte-wise, which on UTF-8 is the order of the code points. *)

Module Str.

(** ASCII code points for which [str.isspace] holds. *)
Definition is_space (c : ascii) : bool :=
  let n := nat_of_ascii c in
  ((9 <=? n) && (n <=? 13) || (28 <=? n) && (n <=? 32))%nat.

Fixpoint lstrip (s : string) : string :=
  match s with
  | EmptyString => EmptyString
  | String c s' => if is_space c then lstrip s' else s
  end.

Definition rstrip (s : string) : string :=
  String.rev (lstrip (String.rev s)).

Definition strip (s : string) : string := rstrip (lstrip s).

Definition lower_ascii (c : ascii) : ascii :=
  let n := nat_of_ascii c in
  if ((65 <=? n) && (n <=? 90))%nat then ascii_of_nat (n + 32) else c.

Fixpoint lower (s : string) : string :=
  match s with
  | EmptyString => EmptyString
  | String c s' => String (lower_ascii c) (lower s')
  end.

(** [needle in s]. *)
Fixpoint contains (needle s : string) : bool :=
  if String.prefix needle s then true
  else match s with
       | EmptyString => false
       | String _ s' => contains needle s'
       end.

Definition nonempty (s : string) : bool :=
  match s with EmptyString => false | _ => true end.

(** [str(z)] for an int. *)
Definition of_Z (z : Z) : string := NilZero.string_of_int (Z.to_int z).

(** [f"{x:.0f}"]: sign, then the magnitude rounded half to even. *)
Definition fmt_0f (x : float) : string :=
  (if fltb x (Z2Qc 0) then "-" else "") +:+ of_Z (round_half_even (fabs x)).

(** [f"{x:+.0f}"]. *)
Definition fmt_signed_0f (x : float) : string :=
  (if fltb x (Z2Qc 0) then "-" else "+") +:+ of_Z (round_half_even (fabs x)).

(** [f"{x:.1f}"]. *)
Definition fmt_1f (x : float) : string :=
  let n := round_half_even (fabs x * Z2Qc 10)%Qc in
  (if fltb x (Z2Qc 0) then "-" else "")
    +:+ of_Z (n / 10) +:+ "." +:+ of_Z (n mod 10).

End Str.

(** ** Exceptions *)

Inductive exn : Type :=
  | TypeError | ValueError | OverflowError | AttributeError | IndexError.

Inductive result (A : Type) : Type :=
  | Ok (a : A)
  | Raise (e : exn).
Arguments Ok {A} a.
Arguments Raise {A} e.

Global Instance result_ret : MRet result := fun _ a => Ok a.
Global Instance result_fmap : FMap result := fun _ _ f r =>
  match r with
  | Ok a => Ok (f a)
  | Raise e => Raise e
  end.
Global Instance result_bind : MBind result := fun _ _ k r =>
  match r with
  | Ok a => k a
  | Raise e => Raise e
  end.

(** [try: ... except (TypeError, ValueError): return None]. *)
Definition catch_type_value {A} (r : result A) : result (option A) :=
  match r with
  | Ok a => Ok (Some a)
  | Raise TypeError | Raise ValueError => Ok None
  | Raise e => Raise e
  end.

(** [try: ... except Exception: continue]. *)
Definition catch_all {A} (r : result A) : option A :=
  match r with
  | Ok a => Some a
  | Raise _ => None
  end.

(** ** Data model *)

(** The floats that are not numbers: Python's [json] reads the tokens
    [Infinity], [-Infinity] and [NaN], and reads a literal beyond the
    binary64 range, such as [1e999], as an infinity. *)
Inductive nonfinite : Type := PosInf | NegInf | NaN.

(** A loosely-typed JSON value of a raw record.  Arrays and objects are
    kept only through what the normaliser can observe of them: their
    truthiness and their [str()]. *)
Inductive pyval : Type :=
  | PNone
  | PBool (b : bool)
  | PInt (z : Z)
  | PFloat (x : float)
  | PStr (s : string)
  | POther (nonempty : bool) (repr : string)
  | PNonFinite (k : nonfinite).

(** The [Aircraft] dataclass. *)
Record Aircraft : Type := mkAircraft {
  hex : string;
  flight : string;
  lat : option float;
  lon : option float;
  alt_baro : option Z;
  gs : option float;
  ts : option float;
  reg : option string;
  squawk : option string;
  ground : option bool;
  model_desc : option pyval;
  model_t : option pyval;
  is_mil : bool
}.

Abbreviation point := (float * float)%type.

(** A raw record is a [dict]; [ac.get(k)] is [None] for a missing key. *)
Definition dict_get (r : gmap string pyval) (k : string) : pyval :=
  default PNone (r !! k).

Definition truthy (v : pyval) : bool :=
  match v with
  | PNone => false
  | PBool b => b
  | PInt z => negb (z =? 0)%Z
  | PFloat x => negb (feqb x (Z2Qc 0))
  | PStr s => Str.nonempty s
  | POther t _ => t
  | PNonFinite _ => true
  end.

(** [a or b]. *)
Definition py_or (a b : pyval) : pyval := if truthy a then a else b.

(** [v.lower()], [v.strip()]: only [str] has the method. *)
Definition as_str (v : pyval) : result string :=
  match v with
  | PStr s => Ok s
  | _ => Raise AttributeError
  end.

(** [float(z)] overflows when [z] rounds beyond the largest double. *)
Definition float_overflows (z : Z) : bool :=
  (2 ^ 1024 - 2 ^ 970 <=? Z.abs z)%Z.

(** ** Snapshot normaliser *)

Section Normalizer.

(** [float(s)] and [int(s)] on a string; [None] is [ValueError]. *)
Variable str_to_float : string -> option float.
Variable str_to_int : string -> option Z.
(** [str(x)] on a float. *)
Variable float_repr : float -> string.
(** An infinity or a NaN is not a number of the model.  [float()]
    returns it as it is; the state then carries this stand-in for it,
    about which the engine's arithmetic says nothing. *)
Variable nonfinite_float : nonfinite -> float.

Definition py_str (v : pyval) : string :=
  match v with
  | PNone => "None"
  | PBool true => "True"
  | PBool false => "False"
  | PInt z => Str.of_Z z
  | PFloat x => float_repr x
  | PStr s => s
  | POther _ r => r
  | PNonFinite PosInf => "inf"
  | PNonFinite NegInf => "-inf"
  | PNonFinite NaN => "nan"
  end.

Definition py_float (v : pyval) : result float :=
  match v with
  | PNone => Raise TypeError
  | PBool b => Ok (Z2Qc (if b then 1 else 0))
  | PInt z => if float_overflows z then Raise OverflowError else Ok (Z2Qc z)
  | PFloat x => Ok x
  | PStr s => match str_to_float s with
              | Some x => Ok x
              | None => Raise ValueError
              end
  | POther _ _ => Raise TypeError
  | PNonFinite k => Ok (nonfinite_float k)
  end.

(** [int(v)]: an infinity raises [OverflowError], a NaN [ValueError]. *)
Definition py_int (v : pyval) : result Z :=
  match v with
  | PNone => Raise TypeError
  | PBool b => Ok (if b then 1 else 0)
  | PInt z => Ok z
  | PFloat x => Ok (ftrunc x)
  | PStr s => match str_to_int s with
              | Some z => Ok z
              | None => Raise ValueError
              end
  | POther _ _ => Raise TypeError
  | PNonFinite NaN => Raise ValueError
  | PNonFinite _ => Raise OverflowError
  end.

Definition safe_int (val : pyval) : result (option Z) :=
  catch_type_value (py_int val).

Definition safe_float (val : pyval) : result (option float) :=
  catch_type_value (py_float val).

Definition safe_bool (val : pyval) : option bool :=
  match val with
  | PBool b => Some b
  | _ =>
      let s := Str.lower (Str.strip (py_str val)) in
      if bool_decide (s ∈ ["true"; "1"; "yes"]) then Some true
      else if bool_decide (s ∈ ["false"; "0"; "no"]) then Some false
      else None
  end.

(** The [Aircraft(...)] call of the main loop, arguments evaluated left
    to right. *)
Definition build_aircraft (ac : gmap string pyval) : result Aircraft :=
  let get := dict_get ac in
  a_hex ← Str.lower <$> as_str (py_or (get "hex") (PStr ""));
  a_flight ← Str.strip <$> as_str (py_or (get "flight") (PStr ""));
  a_lat ← safe_float (get "lat");
  a_lon ← safe_float (get "lon");
  a_alt ← safe_int (get "alt_baro");
  a_gs ← safe_float (get "gs");
  a_ts ← safe_float (py_or (get "seen_pos_timestamp") (get "seen_timestamp"));
  a_reg ← Str.strip <$> as_str (py_or (py_or (get "r") (get "reg")) (PStr ""));
  Ok {| hex := a_hex;
        flight := a_flight;
        lat := a_lat;
        lon := a_lon;
        alt_baro := a_alt;
        gs := a_gs;
        ts := a_ts;
        reg := if Str.nonempty a_reg then Some a_reg else None;
        squawk := if truthy (get "squawk")
                  then Some (Str.strip (py_str (get "squawk"))) else None;
        ground := safe_bool (get "ground");
        model_desc := if truthy (get "desc") then Some (get "desc") else None;
        model_t := if truthy (get "t") then Some (get "t") else None;
        is_mil := truthy (get "force_mil") || truthy (get "military")
                  || truthy (get "isMil") || truthy (get "mil")
                  || Str.contains "military"
                       (Str.lower (py_str (py_or (get "dbFlags") (PStr "")))) |}.

(** [try: aircraft.append(Aircraft(...)) except Exception: continue]. *)
Definition normalize (ac : gmap string pyval) : option Aircraft :=
  catch_all (build_aircraft ac).

Definition normalize_all (merged : list (gmap string pyval)) : list Aircraft :=
  omap normalize merged.

End Normalizer.

(** ** Geometry *)

Inductive family_tag : Type := FamA | FamB.

Global Instance family_tag_eq_dec : EqDecision family_tag.
Proof. solve_decision. Defined.

(** Consecutive pairs [(track[i], track[i+1])]. *)
Definition consecutive {A} (l : list A) : list (A * A) := zip l (tail l).

(** [min(l, key=f)]: the first element whose key is minimal. *)
Definition min_by {A} (key : A -> float) (l : list A) : option A :=
  match l with
  | [] => None
  | x :: l' => Some (foldl (fun m y => if fltb (key y) (key m) then y else m) x l')
  end.

(** [max(a, b)] and [min(a, b)] on two floats. *)
Definition fmax2 (a b : float) : float := if fltb a b then b else a.
Definition fmin2 (a b : float) : float := if fltb b a then b else a.

Fixpoint insert_uniq (x : Z) (l : list Z) : list Z :=
  match l with
  | [] => [x]
  | y :: l' =>
      if (x <? y)%Z then x :: l
      else if (x =? y)%Z then l
      else y :: insert_uniq x l'
  end.

(** [sorted(set(l))] on ints. *)
Definition sorted_set (l : list Z) : list Z := foldr insert_uniq [] l.

Definition angle_diff_deg (a b : float) : float :=
  let d := fmod (fabs (a - b)%Qc) (Z2Qc 360) in
  if fleb d (Z2Qc 180) then d else (Z2Qc 360 - d)%Qc.

Section Engine.

(** The [math] module. *)
Variables sin cos sqrt radians degrees : float -> float.
Variable atan2 : float -> float -> float.

(** Great-circle distance.  [math.sqrt] raises [ValueError] on a
    negative argument, which rounding produces for some nearly antipodal
    points; the distance is read where the function returns. *)
Definition haversine_km (p1 p2 : point) : float :=
  let R := Z2Qc 6371 in
  let lat1 := radians p1.1 in
  let lon1 := radians p1.2 in
  let lat2 := radians p2.1 in
  let lon2 := radians p2.2 in
  let dlat := (lat2 - lat1)%Qc in
  let dlon := (lon2 - lon1)%Qc in
  let a := (sin (dlat / Z2Qc 2) ^ 2
            + cos lat1 * cos lat2 * sin (dlon / Z2Qc 2) ^ 2)%Qc in
  (R * Z2Qc 2 * atan2 (sqrt a) (sqrt (Z2Qc 1 - a)))%Qc.

Definition heading (p1 p2 : point) : option float :=
  let dy := (p2.1 - p1.1)%Qc in
  let dx := (p2.2 - p1.2)%Qc in
  if feqb dx (Z2Qc 0) && feqb dy (Z2Qc 0) then None
  else Some (fmod (degrees (atan2 dx dy)) (Z2Qc 360)).

(** ** Pattern detectors *)

Definition count_crossings (mid_lat : float) (track : list point) : Z :=
  Z.of_nat (length (filter
    (fun pq : point * point =>
       ((pq.1.1 - mid_lat) * (pq.2.1 - mid_lat) < Z2Qc 0)%Qc)
    (consecutive track))).

Definition detect_loop_or_racetrack (track : list point)
    (loop_close_km : float) (min_points : Z)
    (min_span_km : float) (min_laps : Z) : result (option string) :=
  if (Z.of_nat (length track) <? min_points)%Z then Ok None
  else
    match head track, last track with
    | Some p0, Some pn =>
        let dist_start_end := haversine_km p0 pn in
        if fltb loop_close_km dist_start_end then Ok None
        else
          let lats := track.*1 in
          let lons := track.*2 in
          match fmin_list lats, fmax_list lats,
                fmin_list lons, fmax_list lons with
          | Some min_lat, Some max_lat, Some min_lon, Some max_lon =>
              let span_lat :=
                haversine_km (min_lat, min_lon) (max_lat, min_lon) in
              let span_lon :=
                haversine_km (min_lat, min_lon) (min_lat, max_lon) in
              let major := fmax2 span_lat span_lon in
              let minor := fmin2 span_lat span_lon in
              if fltb major min_span_km || fltb minor (Z2Qc 2) then Ok None
              else
                let aspect_ratio :=
                  (major / (minor + Q2Qc (1 # 1000000)))%Qc in
                let shape :=
                  if fltb aspect_ratio (Q2Qc (3 # 2))
                  then "LOOP/CERCHIO" else "RACETRACK" in
                let mid_lat := ((max_lat + min_lat) / Z2Qc 2)%Qc in
                let crossings := count_crossings mid_lat track in
                if (crossings <? min_laps * 2)%Z then Ok None
                else Ok (Some shape)
          | _, _, _, _ => Raise ValueError
          end
    | _, _ => Raise IndexError
    end.

(** Bearings of the consecutive pairs, stationary pairs skipped, each
    folded into one axis by [% 180]. *)
Definition lawn_heads (track : list point) : list float :=
  omap (fun pq : point * point =>
          (fun h => fmod h (Z2Qc 180)) <$> heading pq.1 pq.2)
       (consecutive track).

(** The two-branch test of the cluster loop and of the sequence loop.
    The sum [h + 180] is a binary64 addition: for most bearings below
    180 it is not exact, and [(h + 180) % 180] then differs from [h] in
    the last places. *)
Definition lawn_label (heading_tolerance base h : float) : option family_tag :=
  if fltb (angle_diff_deg h base) heading_tolerance then Some FamA
  else if fltb (angle_diff_deg
                  (fmod (round64 (h + Z2Qc 180)%Qc) (Z2Qc 180)) base)
               heading_tolerance
       then Some FamB
       else None.

Definition lawn_clusters (heading_tolerance base : float)
    (heads : list float) : list float * list float :=
  foldl (fun cl h =>
           match lawn_label heading_tolerance base h with
           | Some FamA => (cl.1 ++ [h], cl.2)
           | Some FamB => (cl.1, cl.2 ++ [h])
           | None => cl
           end) ([], []) heads.

Definition lawn_sequence (heading_tolerance base : float)
    (heads : list float) : list family_tag :=
  omap (lawn_label heading_tolerance base) heads.

(** Number of positions [i >= 1] with [seq[i] != seq[i-1]]. *)
Definition alternations {A} `{EqDecision A} (seq : list A) : Z :=
  Z.of_nat (length (filter (fun xy : A * A => xy.1 ≠ xy.2) (consecutive seq))).

Definition detect_lawnmower (track : list point)
    (min_points : Z) (heading_tolerance : float)
    (required_passes : Z) (min_span_km : float) : result bool :=
  if (Z.of_nat (length track) <? min_points)%Z then Ok false
  else
    let lats := track.*1 in
    let lons := track.*2 in
    match fmin_list lats, fmin_list lons,
          fmax_list lats, fmax_list lons with
    | Some min_lat, Some min_lon, Some max_lat, Some max_lon =>
        let span := haversine_km (min_lat, min_lon) (max_lat, max_lon) in
        if fltb span min_span_km then Ok false
        else
          let heads := lawn_heads track in
          match min_by (fun x => fsum (map (angle_diff_deg x) heads)) heads with
          | None => Ok false
          | Some base =>
              let clusters := lawn_clusters heading_tolerance base heads in
              if (Z.of_nat (length clusters.1) <? required_passes)%Z
                 || (Z.of_nat (length clusters.2) <? required_passes)%Z
              then Ok false
              else
                let sequence := lawn_sequence heading_tolerance base heads in
                Ok (required_passes - 1 <=? alternations sequence)%Z
          end
    | _, _, _, _ => Raise ValueError
    end.

(** [int(round((h or 0)/10.0)*10) % 180]. *)
Definition mesh_round (h : float) : Z :=
  (round_half_even (h / Z2Qc 10)%Qc * 10) mod 180.

Definition mesh_heads (track : list point) : list Z :=
  omap (fun pq : point * point => mesh_round <$> heading pq.1 pq.2)
       (consecutive track).

(** The filter of the [pairs] comprehension. *)
Definition mesh_perp (perpendicular_tolerance : float) (a b : Z) : bool :=
  fleb (Z2Qc (Z.abs (((a - b) + 180) mod 180 - 90))) perpendicular_tolerance.

Definition mesh_pairs (perpendicular_tolerance : float)
    (uniq : list Z) : list (Z * Z) :=
  a ← uniq; b ← uniq;
  if mesh_perp perpendicular_tolerance a b then [(a, b)] else [].

Definition family (h a b : Z) (tol : float) : option family_tag :=
  if fleb (Z2Qc (Z.abs (((h - a) + 180) mod 180))) tol then Some FamA
  else if fleb (Z2Qc (Z.abs (((h - b) + 180) mod 180))) tol then Some FamB
  else None.

(** Loop state of the family scan: the two counters, the number of
    family switches and the last family seen. *)
Record mesh_scan : Type := mkScan {
  count_A : Z;
  count_B : Z;
  scan_crossings : Z;
  scan_last : option family_tag
}.

Definition mesh_step (a b : Z) (tol : float) (st : mesh_scan) (h : Z)
    : mesh_scan :=
  match family h a b tol with
  | None => st
  | Some f =>
      let st' :=
        match f with
        | FamA => mkScan (count_A st + 1) (count_B st)
                         (scan_crossings st) (scan_last st)
        | FamB => mkScan (count_A st) (count_B st + 1)
                         (scan_crossings st) (scan_last st)
        end in
      if bool_decide (Some f ≠ scan_last st)
      then mkScan (count_A st') (count_B st')
                  (scan_crossings st' + 1) (Some f)
      else st'
  end.

Definition detect_mesh_heads (heads : list Z)
    (perpendicular_tolerance : float) (min_crossings : Z)
    (min_family_ratio : float) : bool :=
  match heads with
  | [] => false
  | _ =>
      match mesh_pairs perpendicular_tolerance (sorted_set heads) with
      | [] => false
      | (a, b) :: _ =>
          let st := foldl (mesh_step a b perpendicular_tolerance)
                          (mkScan 0 0 0 None) heads in
          let total := (count_A st + count_B st)%Z in
          if (total =? 0)%Z then false
          else if fltb (Z2Qc (count_A st) / Z2Qc total)%Qc min_family_ratio
                  || fltb (Z2Qc (count_B st) / Z2Qc total)%Qc min_family_ratio
          then false
          else (min_crossings <=? scan_crossings st)%Z
      end
  end.

Definition detect_mesh (track : list point)
    (min_points : Z) (perpendicular_tolerance : float)
    (min_crossings : Z) (min_family_ratio : float) : bool :=
  if (Z.of_nat (length track) <? min_points)%Z then false
  else detect_mesh_heads (mesh_heads track) perpendicular_tolerance
                         min_crossings min_family_ratio.

End Engine.

(** ** Anomaly classifier *)

(** The [is_ground] flag computed at the top of [detect_anomalies]. *)
Definition derive_is_ground (ac : Aircraft) : bool :=
  if bool_decide (ground ac = Some true) then true
  else if match alt_baro ac with
          | Some alt =>
              (alt <=? 100)%Z
              && match gs ac with
                 | None => true
                 | Some g => fltb g (Z2Qc 60)
                 end
          | None => false
          end then true
  else if match alt_baro ac with
          | Some alt => (alt <=? 0)%Z
          | None => false
          end then true
  else false.

Definition str_le (a b : string) : Prop := String.leb a b = true.

Global Instance str_le_dec : RelDecision str_le.
Proof. intros a b. unfold str_le. apply _. Defined.

(** [sorted(seen)] on a set of strings. *)
Definition py_sorted (seen : gset string) : list string :=
  merge_sort str_le (elements seen).

Definition emergency_squawks : list string := ["7500"; "7600"; "7700"].

(** The anomaly classifier.  The vertical speed divides an [int] by a
    float, which raises [OverflowError] for an altitude difference
    beyond the binary64 range; altitudes are read within it. *)
Definition detect_anomalies (ac : Aircraft) (prev : option Aircraft)
    (dt_sec : option float) (min_alt_ft max_alt_ft : Z)
    (min_gs_kt max_gs_kt max_vs_fpm max_dgs_kts : float) : list string :=
  let seen : gset string := ∅ in
  let is_ground := derive_is_ground ac in
  let seen :=
    match squawk ac with
    | Some sq =>
        if Str.nonempty sq && bool_decide (Str.strip sq ∈ emergency_squawks)
        then seen ∪ {[ "SQUAWK: #" +:+ sq ]} else seen
    | None => seen
    end in
  let seen :=
    match gs ac with
    | Some g =>
        if fltb max_gs_kt g
        then seen ∪ {[ "GS alta: " +:+ Str.fmt_0f g +:+ " kt" ]}
        else if fltb g min_gs_kt && negb is_ground
        then seen ∪ {[ "GS bassa: " +:+ Str.fmt_0f g +:+ " kt" ]}
        else seen
    | None => seen
    end in
  let seen :=
    match alt_baro ac with
    | Some alt =>
        if (max_alt_ft <? alt)%Z
        then seen ∪ {[ "ALT alta: " +:+ Str.of_Z alt +:+ " ft" ]}
        else if (alt <? min_alt_ft)%Z && negb is_ground && (0 <? alt)%Z
        then seen ∪ {[ "ALT bassa: " +:+ Str.of_Z alt +:+ " ft" ]}
        else seen
    | None => seen
    end in
  let seen :=
    match prev, dt_sec with
    | Some p, Some dt =>
        if negb (feqb dt (Z2Qc 0)) && fltb (Z2Qc 0) dt then
          let seen :=
            match gs ac, gs p with
            | Some g, Some pg =>
                let dgs := (g - pg)%Qc in
                if fltb max_dgs_kts (fabs dgs)
                then seen ∪ {[ "ΔGS anomalo: " +:+ Str.fmt_signed_0f dgs +:+ " kt" ]}
                else seen
            | _, _ => seen
            end in
          match alt_baro ac, alt_baro p with
          | Some alt, Some palt =>
              let vs_fpm := (Z2Qc (alt - palt) / dt * Z2Qc 60)%Qc in
              if fltb max_vs_fpm (fabs vs_fpm)
              then seen ∪ {[ "VS anomala: " +:+ Str.fmt_0f vs_fpm +:+ " fpm" ]}
              else seen
          | _, _ => seen
          end
        else seen
    | _, _ => seen
    end in
  py_sorted seen.

Definition DEF_MAX_GS_KT : float := Z2Qc 650.
Definition DEF_MIN_GS_KT : float := Z2Qc 35.
Definition DEF_MIN_ALT_FT : Z := 500.
Definition DEF_MAX_ALT_FT : Z := 60000.
Definition DEF_MAX_VS_FPM : float := Z2Qc 8000.
Definition DEF_MAX_DGS_KTS : float := Z2Qc 250.

(** A float used as a condition: present and non-zero. *)
Definition truthy_float (o : option float) : bool :=
  match o with
  | Some x => negb (feqb x (Z2Qc 0))
  | None => false
  end.

(** The [dt_sec] the main loop hands to [detect_anomalies]. *)
Definition elapsed_seconds (ac : Aircraft) (prev : option Aircraft)
    : option float :=
  match prev with
  | Some p =>
      match ts ac, ts p with
      | Some t, Some pt =>
          if negb (feqb t (Z2Qc 0)) && negb (feqb pt (Z2Qc 0))
          then Some (fmax2 (Z2Qc 0) (t - pt)%Qc) else None
      | _, _ => None
      end
  | None => None
  end.

(** ** Cooldown ledger *)

Section Ledger.

Context {K : Type} `{Countable K}.

(** [if now_ts - last.get(key, 0) >= window: ...; last[key] = now_ts]:
    the answer, and the ledger afterwards. *)
Definition check_and_mark (last : gmap K float) (key : K)
    (now_ts : float) (window : Z) : bool * gmap K float :=
  if fleb (Z2Qc window) (now_ts - default (Z2Qc 0) (last !! key))%Qc
  then (true, <[key := now_ts]> last)
  else (false, last).

End Ledger.

(** The ledgers of the PATTERN and ANOMALY phases, with their keys. *)
Definition pattern_alert (last_pattern_alert : gmap (string * string) float)
    (ac : Aircraft) (pattern : string) (now_ts : float)
    (pattern_cooldown : Z) : bool * gmap (string * string) float :=
  check_and_mark last_pattern_alert (hex ac, pattern) now_ts pattern_cooldown.

Definition anomaly_alert (last_anom_alert : gmap string float)
    (ac : Aircraft) (now_ts : float) (anomaly_cooldown : Z)
    : bool * gmap string float :=
  check_and_mark last_anom_alert (hex ac) now_ts anomaly_cooldown.

(** ** Track history store *)

(** [deque(maxlen=n).append(x)]: append on the right, then drop from the
    left while the bound is exceeded. *)
Definition deque_append {A} (maxlen : nat) (d : list A) (x : A) : list A :=
  let d' := d ++ [x] in
  if (maxlen <? length d')%nat then drop 1 d' else d'.

Definition TRACK_MAXLEN : nat := 120.

(** [track_history[hex]] of the [defaultdict]: an unseen key reads as
    the empty deque. *)
Definition th_get (track_history : gmap string (list point)) (h : string)
    : list point :=
  default [] (track_history !! h).

(** The first three lines of the TRACK & PATTERN loop body. *)
Definition track_append (track_history : gmap string (list point))
    (ac : Aircraft) : gmap string (list point) :=
  match lat ac, lon ac with
  | Some la, Some lo =>
      <[hex ac := deque_append TRACK_MAXLEN (th_get track_history (hex ac)) (la, lo)]>
        track_history
  | _, _ => track_history
  end.

(** The last [n] elements of a list. *)
Definition lastn {A} (n : nat) (l : list A) : list A :=
  drop (length l - n) l.

(** The positions a list of states contributes to the history of [h]. *)
Definition positions_of (h : string) (acs : list Aircraft) : list point :=
  omap (fun ac =>
          if bool_decide (hex ac = h) then
            match lat ac, lon ac with
            | Some la, Some lo => Some (la, lo)
            | _, _ => None
            end
          else None) acs.

(** ** Proximity classifier and the cycle's phases *)

(** A row handed to the CSV writer: the aircraft whose fields fill the
    columns, the event type and the note. *)
Record event_row : Type := mkRow {
  row_ac : Aircraft;
  row_event_type : string;
  row_note : string
}.

(** The proximity thresholds and cooldown of the command line. *)
Record prox_args : Type := mkProxArgs {
  proximity_km : float;
  prox_angle_deg : float;
  prox_alt_diff_ft : float;
  prox_gs_diff_kt : float;
  prox_cooldown : Z
}.

(** [ac.lat and ac.lon] used as a condition. *)
Definition has_position (ac : Aircraft) : bool :=
  truthy_float (lat ac) && truthy_float (lon ac).

Definition position (ac : Aircraft) : point :=
  (default (Z2Qc 0) (lat ac), default (Z2Qc 0) (lon ac)).

Definition same_direction (h1 h2 : option float) (tol_deg : float) : bool :=
  match h1, h2 with
  | Some a, Some b => fleb (angle_diff_deg a b) tol_deg
  | _, _ => false
  end.

Definition alt_ok (args : prox_args) (ac1 ac2 : Aircraft) : bool :=
  match alt_baro ac1, alt_baro ac2 with
  | Some a1, Some a2 => fleb (Z2Qc (Z.abs (a1 - a2))) (prox_alt_diff_ft args)
  | _, _ => false
  end.

Definition gs_ok (args : prox_args) (ac1 ac2 : Aircraft) : bool :=
  match gs ac1, gs ac2 with
  | Some g1, Some g2 => fleb (fabs (g1 - g2)%Qc) (prox_gs_diff_kt args)
  | _, _ => false
  end.

(** [tuple(sorted([hex1, hex2]) + [label])]. *)
Definition prox_key (hex1 hex2 label : string) : string * string * string :=
  if bool_decide (str_le hex1 hex2) then (hex1, hex2, label)
  else (hex2, hex1, label).

Record prox_state : Type := mkProxState {
  last_prox_alert : gmap (string * string * string) float;
  event_rows : list event_row;
  ticks : nat
}.

Section Cycle.

Variables sin cos sqrt radians degrees : float -> float.
Variable atan2 : float -> float -> float.
(** [clock n] is what the [n]-th call of [time.time()] of the phase
    returns. *)
Variable clock : nat -> float.

Local Abbreviation distance := (haversine_km sin cos sqrt radians atan2).
Local Abbreviation bearing := (heading degrees atan2).

Definition approx_following (p_lead : point) (h_lead : option float)
    (p_trail : point) (h_trail : option float) (tol_deg : float) : bool :=
  match h_lead, h_trail with
  | Some hl, Some ht =>
      if fltb tol_deg (angle_diff_deg hl ht) then false
      else
        match bearing p_lead p_trail with
        | None => false
        | Some bt =>
            fleb (angle_diff_deg (fmod (hl + Z2Qc 180)%Qc (Z2Qc 360)) bt)
                 tol_deg
        end
  | _, _ => false
  end.

(** [heading(th[-2], th[-1]) if len(th) >= 2 else None], for the history
    [th] of a hex (the [defaultdict] reads an unseen hex as empty). *)
Definition cur_heading (track_history : gmap string (list point))
    (h : string) : option float :=
  match reverse (th_get track_history h) with
  | p_last :: p_prev :: _ => bearing p_prev p_last
  | _ => None
  end.

Definition dist_gate (args : prox_args) (p1 p2 : point) : bool :=
  fltb (distance p1 p2) (proximity_km args).

Definition prox_label (args : prox_args) (p1 : point) (h1 : option float)
    (p2 : point) (h2 : option float) : string :=
  if approx_following p1 h1 p2 h2 (prox_angle_deg args)
     || approx_following p2 h2 p1 h1 (prox_angle_deg args)
  then "INSEGUIMENTO" else "CLUSTER".

(** The body of the inner loop up to the label, for a first aircraft
    that passed the position test: [None] is a [continue]. *)
Definition prox_inner (args : prox_args) (ac1 : Aircraft)
    (h1 : option float) (ac2 : Aircraft) (h2 : option float)
    : option (string * float) :=
  if negb (has_position ac2) then None
  else if bool_decide (hex ac1 = hex ac2) then None
  else
    let p1 := position ac1 in
    let p2 := position ac2 in
    let dist := distance p1 p2 in
    if negb (dist_gate args p1 p2) then None
    else if negb (alt_ok args ac1 ac2 && gs_ok args ac1 ac2
                  && same_direction h1 h2 (prox_angle_deg args))
    then None
    else Some (prox_label args p1 h1 p2 h2, dist).

(** The whole pairwise check, position test of the outer loop
    included. *)
Definition prox_pair (args : prox_args) (ac1 : Aircraft)
    (h1 : option float) (ac2 : Aircraft) (h2 : option float)
    : option (string * float) :=
  if negb (has_position ac1) then None
  else prox_inner args ac1 h1 ac2 h2.

Definition prox_note (label peer : string) (dist : float) : string :=
  label +:+ "; peer=" +:+ peer +:+ "; dist=" +:+ Str.fmt_1f dist +:+ " km".

(** One iteration of the inner loop, cooldown and rows included. *)
Definition prox_visit (args : prox_args)
    (track_history : gmap string (list point))
    (ac1 : Aircraft) (st : prox_state) (ac2 : Aircraft) : prox_state :=
  let h1 := cur_heading track_history (hex ac1) in
  let h2 := cur_heading track_history (hex ac2) in
  match prox_inner args ac1 h1 ac2 h2 with
  | None => st
  | Some (label, dist) =>
      let key := prox_key (hex ac1) (hex ac2) label in
      let now_ts := clock (ticks st) in
      if fltb (now_ts - default (Z2Qc 0) (last_prox_alert st !! key))%Qc
              (Z2Qc (prox_cooldown args))
      then mkProxState (last_prox_alert st) (event_rows st) (S (ticks st))
      else
        let row1 := mkRow ac1 "PROX" (prox_note label (hex ac2) dist) in
        let row2 := mkRow ac2 "PROX" (prox_note label (hex ac1) dist) in
        mkProxState (<[key := now_ts]> (last_prox_alert st))
                    (event_rows st ++ [row1; row2]) (S (ticks st))
  end.

(** The two nested loops of the PROX phase. *)
Fixpoint prox_phase (args : prox_args)
    (track_history : gmap string (list point))
    (aircraft : list Aircraft) (st : prox_state) : prox_state :=
  match aircraft with
  | [] => st
  | ac1 :: rest =>
      prox_phase args track_history rest
        (if has_position ac1
         then foldl (prox_visit args track_history ac1) st rest
         else st)
  end.

(** Detector priority of the TRACK & PATTERN phase. *)
Record pattern_args : Type := mkPatternArgs {
  loop_min_points : Z;
  loop_close_km : float;
  loop_min_span_km : float;
  loop_min_laps : Z;
  lawn_min_points : Z;
  lawn_heading_tol : float;
  lawn_required_passes : Z;
  lawn_min_span_km : float;
  mesh_min_points : Z;
  mesh_perp_tol : float;
  mesh_min_crossings : Z
}.

Definition classify_pattern (args : pattern_args) (track : list point)
    : result (option string) :=
  loop_type ← detect_loop_or_racetrack sin cos sqrt radians atan2 track
                (loop_close_km args) (loop_min_points args)
                (loop_min_span_km args) (loop_min_laps args);
  match loop_type with
  | Some shape => Ok (Some shape)
  | None =>
      lawn ← detect_lawnmower sin cos sqrt radians degrees atan2 track
               (lawn_min_points args) (lawn_heading_tol args)
               (lawn_required_passes args) (lawn_min_span_km args);
      if lawn : bool then Ok (Some "TAGLIAERBA")
      else if detect_mesh degrees atan2 track (mesh_min_points args)
                (mesh_perp_tol args) (mesh_min_crossings args)
                (Q2Qc (1 # 4))
      then Ok (Some "MESH/RETICOLATO")
      else Ok None
  end.

End Cycle.

(** ** Geofence *)

(** One turn of the loop of [point_in_ring] for the edge from [ring[i]]
    to [ring[(i + 1) % n]]: whether [inside] is flipped.  [None] stands
    for the [ZeroDivisionError] of a zero denominator. *)
Definition edge_toggles (x y : float) (e : point * point) : option bool :=
  let yi := e.1.1 in
  let xi := e.1.2 in
  let yj := e.2.1 in
  let xj := e.2.2 in
  if xorb (fltb y yi) (fltb y yj) then
    let den := (yj - yi + Q2Qc (1 # 1000000000000))%Qc in
    if feqb den (Z2Qc 0) then None
    else Some (fltb x ((xj - xi) * (y - yi) / den + xi)%Qc)
  else Some false.

(** The pairs [(ring[i], ring[(i + 1) % n])]. *)
Definition ring_edges (ring : list point) : list (point * point) :=
  zip ring (rotate 1 ring).

Definition point_in_ring (pt : point) (ring : list point) : option bool :=
  let x := pt.2 in
  let y := pt.1 in
  foldl (fun acc e =>
           inside ← acc; t ← edge_toggles x y e; Some (xorb inside t))
        (Some false) (ring_edges ring).

(** The loop over the holes [polygon[1:]]. *)
Fixpoint outside_holes (pt : point) (holes : list (list point)) : option bool :=
  match holes with
  | [] => Some true
  | hole :: rest =>
      b ← point_in_ring pt hole;
      if b : bool then Some false else outside_holes pt rest
  end.

Definition point_in_polygon (pt : point) (polygon : list (list point))
    : option bool :=
  match polygon with
  | [] => Some false
  | outer :: holes =>
      b ← point_in_ring pt outer;
      if b : bool then outside_holes pt holes else Some false
  end.

(** [any(point_in_polygon(pt, poly) for poly in polygons)]. *)
Fixpoint any_polygon (pt : point) (polygons : list (list (list point)))
    : option bool :=
  match polygons with
  | [] => Some false
  | poly :: rest =>
      b ← point_in_polygon pt poly;
      if b : bool then Some true else any_polygon pt rest
  end.

Definition in_any_polygon (la lo : option float)
    (polygons : list (list (list point))) : option bool :=
  match la, lo with
  | Some y, Some x => any_polygon (y, x) polygons
  | _, _ => Some false
  end.



(** ** The ANOMALY and MIL phases *)

(** The anomaly thresholds and cooldown of the command line. *)
Record anomaly_args : Type := mkAnomalyArgs {
  min_alt_ft : Z;
  max_alt_ft : Z;
  min_gs_kt : float;
  max_gs_kt : float;
  max_vs_fpm : float;
  max_dgs_kts : float;
  anomaly_cooldown : Z
}.

Record anomaly_state : Type := mkAnomalyState {
  prev_state : gmap string Aircraft;
  last_anom_alert : gmap string float;
  anomaly_rows : list event_row;
  anomaly_ticks : nat
}.

(** ["; ".join(anomalies)]. *)
Fixpoint join_semicolon (l : list string) : string :=
  match l with
  | [] => ""
  | [a] => a
  | a :: rest => a +:+ "; " +:+ join_semicolon rest
  end.

Record mil_state : Type := mkMilState {
  last_mil_alert : gmap string float;
  mil_rows : list event_row;
  mil_ticks : nat
}.

Section Phases.

(** [clock n] is what the [n]-th call of [time.time()] of the phase
    returns. *)
Variable clock : nat -> float.

(** The body of the ANOMALY loop. *)
Definition anomaly_step (args : anomaly_args) (st : anomaly_state)
    (ac : Aircraft) : anomaly_state :=
  let prev := prev_state st !! hex ac in
  let dt_sec := elapsed_seconds ac prev in
  let anomalies :=
    detect_anomalies ac prev dt_sec (min_alt_ft args) (max_alt_ft args)
      (min_gs_kt args) (max_gs_kt args) (max_vs_fpm args) (max_dgs_kts args) in
  let st' :=
    match anomalies with
    | [] => st
    | _ =>
        let now_ts := clock (anomaly_ticks st) in
        let r := check_and_mark (last_anom_alert st) (hex ac) now_ts
                   (anomaly_cooldown args) in
        mkAnomalyState (prev_state st) r.2
          (if r.1
           then anomaly_rows st
                  ++ [mkRow ac "ANOMALY" (join_semicolon anomalies)]
           else anomaly_rows st)
          (S (anomaly_ticks st))
    end in
  mkAnomalyState (<[hex ac := ac]> (prev_state st')) (last_anom_alert st')
    (anomaly_rows st') (anomaly_ticks st').

Definition anomaly_phase (args : anomaly_args) (aircraft : list Aircraft)
    (st : anomaly_state) : anomaly_state :=
  foldl (anomaly_step args) st aircraft.

(** The body of the MIL loop. *)
Definition mil_step (mil_cooldown : Z) (st : mil_state) (ac : Aircraft)
    : mil_state :=
  if negb (is_mil ac) then st
  else
    let now_ts := clock (mil_ticks st) in
    if fltb (now_ts - default (Z2Qc 0) (last_mil_alert st !! hex ac))%Qc
            (Z2Qc mil_cooldown)
    then mkMilState (last_mil_alert st) (mil_rows st) (S (mil_ticks st))
    else mkMilState (<[hex ac := now_ts]> (last_mil_alert st))
                    (mil_rows st ++ [mkRow ac "MIL" "MIL"])
                    (S (mil_ticks st)).

Definition mil_phase (mil_cooldown : Z) (aircraft : list Aircraft)
    (st : mil_state) : mil_state :=
  foldl (mil_step mil_cooldown) st aircraft.

End Phases.

(** * Notions of the specification and sample data *)

(** The two altitude/speed heuristics, as the specification words them:
    altitude at most 100 ft with ground speed absent or below 60 kt, or
    altitude at most 0 ft. *)
Definition ground_heuristic (ac : Aircraft) : bool :=
  match alt_baro ac with
  | Some alt =>
      ((alt <=? 100)%Z
       && match gs ac with None => true | Some g => fltb g (Z2Qc 60) end)
      || (alt <=? 0)%Z
  | None => false
  end.

(** A state whose ground flag is explicitly false, 50 ft, no speed. *)
Definition parked_flag_false : Aircraft :=
  mkAircraft "4ca123" "EIN123" None None (Some 50) None None None None
             (Some false) None None false.

(** Sample states: 121 positions of one aircraft, then a state without
    longitude. *)
Definition sample_state (n : Z) : Aircraft :=
  mkAircraft "4ca123" "" (Some (Z2Qc 40)) (Some (Z2Qc n)) None None None
             None None None None None false.

Definition sample_states : list Aircraft :=
  map (fun n => sample_state (Z.of_nat n)) (seq 0 121)
  ++ [mkAircraft "4ca123" "" (Some (Z2Qc 41)) None None None None
                 None None None None None false].

(** A position exactly on the equator or on the prime meridian. *)
Definition on_axis (ac : Aircraft) : Prop :=
  lat ac = Some (Z2Qc 0) \/ lon ac = Some (Z2Qc 0).

(** The rows of [new] beyond those of [old] are PROX rows of aircraft off
    both axes. *)
Definition fresh_rows_off_axis (old new : list event_row) : Prop :=
  exists added,
    new = old ++ added
    /\ Forall (fun r => row_event_type r = "PROX" /\ ~ on_axis (row_ac r)) added.

(** Angular distance between two axes, opposite directions identified. *)
Definition fold_dist (x y : Z) : Z :=
  let d := (x - y) mod 180 in Z.min d (180 - d).

Definition axis_of (f : family_tag) (a b : Z) : Z :=
  match f with FamA => a | FamB => b end.

Definition other_axis (f : family_tag) (a b : Z) : Z :=
  match f with FamA => b | FamB => a end.

(** A value on which [(v or "").lower()] works: a string, or falsy. *)
Definition str_or_falsy (v : pyval) : bool :=
  match py_or v (PStr "") with
  | PStr _ => true
  | _ => false
  end.

(** A value on which [float(v)] does not overflow. *)
Definition float_in_range (v : pyval) : bool :=
  match v with
  | PInt z => negb (float_overflows z)
  | _ => true
  end.

(** A value on which [int(v)] does not overflow: not an infinity. *)
Definition int_in_range (v : pyval) : bool :=
  match v with
  | PNonFinite PosInf | PNonFinite NegInf => false
  | _ => true
  end.

(** No argument of the [Aircraft(...)] call raises past [safe_int] and
    [safe_float]. *)
Definition no_uncaught (r : gmap string pyval) : bool :=
  let get := dict_get r in
  str_or_falsy (get "hex") && str_or_falsy (get "flight")
  && float_in_range (get "lat") && float_in_range (get "lon")
  && int_in_range (get "alt_baro")
  && float_in_range (get "gs")
  && float_in_range (py_or (get "seen_pos_timestamp") (get "seen_timestamp"))
  && str_or_falsy (py_or (get "r") (get "reg")).

(** A telemetry record of an aircraft on the ground, as the feed reports
    it: the barometric altitude is the string "ground". *)
Definition ground_record : gmap string pyval :=
  list_to_map
    [("hex", PStr "4CA123"); ("flight", PStr "EIN123  ");
     ("lat", PFloat (Q2Qc (5342 # 100))); ("lon", PFloat (Q2Qc (- 627 # 100)));
     ("alt_baro", PStr "ground"); ("gs", PFloat (Q2Qc (25 # 2)))].

Definition ground_record_state : Aircraft :=
  mkAircraft "4ca123" "EIN123" (Some (Q2Qc (5342 # 100)))
             (Some (Q2Qc (- 627 # 100))) None (Some (Q2Qc (25 # 2)))
             None None None None None None false.

(** The claim's premise: one of the five numeric fields is present in
    the record and its coercion raises. *)
Definition present_but_uncoercible (str_to_float : string -> option float)
    (str_to_int : string -> option Z) (nonfinite_float : nonfinite -> float)
    (r : gmap string pyval) : Prop :=
  let py_float := py_float str_to_float nonfinite_float in
  (exists v e, r !! "lat" = Some v /\ py_float v = Raise e)
  \/ (exists v e, r !! "lon" = Some v /\ py_float v = Raise e)
  \/ (exists v e, r !! "alt_baro" = Some v /\ py_int str_to_int v = Raise e)
  \/ (exists v e, r !! "gs" = Some v /\ py_float v = Raise e)
  \/ (exists e,
        (is_Some (r !! "seen_pos_timestamp") \/ is_Some (r !! "seen_timestamp"))
        /\ py_float (py_or (dict_get r "seen_pos_timestamp")
                           (dict_get r "seen_timestamp")) = Raise e).

(** A record whose altitude is the JSON number [1e999]. *)
Definition overflow_record : gmap string pyval :=
  {[ "hex" := PStr "4CA124"; "alt_baro" := PNonFinite PosInf ]}.

(** A rational stand-in for the [math] module, exact on the four axis
    directions, on which the detectors can be run on sample tracks. *)
Module CoarseMath.

Definition pi : float := Q2Qc (355 # 113).

Definition radians (x : float) : float := (x * pi / Z2Qc 180)%Qc.

Definition degrees (x : float) : float := (x * Z2Qc 180 / pi)%Qc.

Definition sin (x : float) : float := (x - x ^ 3 / Z2Qc 6)%Qc.

Definition cos (x : float) : float :=
  (Z2Qc 1 - x ^ 2 / Z2Qc 2 + x ^ 4 / Z2Qc 24)%Qc.

Definition sqrt (x : float) : float :=
  (Z2Qc (Z.sqrt (Qfloor (x * Z2Qc (10 ^ 24))%Qc)) / Z2Qc (10 ^ 12))%Qc.

Definition atan_small (t : float) : float := (t - t ^ 3 / Z2Qc 3)%Qc.

Definition atan2 (y x : float) : float :=
  let zero := Z2Qc 0 in
  let half_pi := (pi / Z2Qc 2)%Qc in
  if feqb x zero then
    if fltb zero y then half_pi
    else if fltb y zero then (- half_pi)%Qc else zero
  else if fleb (fabs y) (fabs x) then
    let a := atan_small (y / x)%Qc in
    if fltb zero x then a
    else if fleb zero y then (a + pi)%Qc else (a - pi)%Qc
  else
    let a := atan_small (x / y)%Qc in
    if fltb zero y then (half_pi - a)%Qc else (- half_pi - a)%Qc.

End CoarseMath.

(** A decimal literal. *)
Definition dec (n : Z) (d : positive) : float := Q2Qc (n # d).

(** A boustrophedon sweep: five east-west legs of 0.3 degrees, 0.02
    degrees of latitude apart. *)
Definition sweep_track : list point :=
  map (fun p : Z * Z => (dec (4500 + p.1) 100, dec (90 + p.2) 10))
      [(0, 0); (0, 1); (0, 2); (0, 3); (2, 3); (2, 2); (2, 1); (2, 0);
       (4, 0); (4, 1); (4, 2); (4, 3); (6, 3); (6, 2); (6, 1); (6, 0);
       (8, 0); (8, 1); (8, 2); (8, 3)].

(** The binary64 sum [h + 180.0] is not the exact sum. *)
Definition rounded_sum (h : float) : bool :=
  negb (feqb (round64 (h + Z2Qc 180)%Qc) (h + Z2Qc 180)%Qc).

(** The bearings of a list whose sum with 180 is rounded. *)
Definition rounded_bearings (heads : list float) : list float :=
  filter (fun h => rounded_sum h = true) heads.

(** A track of straight legs from a starting point. *)
Fixpoint walk (p : point) (legs : list point) : list point :=
  p :: match legs with
       | [] => []
       | v :: rest => walk ((p.1 + v.1)%Qc, (p.2 + v.2)%Qc) rest
       end.

(** A leg of [dlat] and [dlon] units of [2 ** -46] degree. *)
Definition leg (dlat dlon : Z) : point :=
  (Q2Qc (dlat # 70368744177664), Q2Qc (dlon # 70368744177664)).

(** A survey flown in legs of two directions, 15 degrees apart up to the
    last binary place: sixteen positions from 38 N 23 E, every
    coordinate a binary64 number, over 84 km. *)
Definition leg_A : point := leg 3518437208883 1196268651020.
Definition leg_B : point := leg 3329234899594 219845535633.

Definition survey_track : list point :=
  walk (Z2Qc 38, Z2Qc 23)
       [leg_A; leg_B; leg_A; leg_B; leg_A; leg_B; leg_A; leg_B;
        leg_A; leg_A; leg_A; leg_A; leg_A; leg_A; leg_A].

(** The [math] module on the survey: [atan2] and [degrees] return on the
    two legs the binary64 numbers the C library returns there
    (0.3277385067804994 and 0.06593911898134987 radians,
    18.77803322244233 and 3.7780332224423234 degrees); elsewhere, and
    for the span of the track, the coarse stand-in. *)
Module SurveyMath.

Definition atan2 (y x : float) : float :=
  if feqb y leg_A.2 && feqb x leg_A.1
  then Q2Qc (5904012068046479 # 18014398509481984)
  else if feqb y leg_B.2 && feqb x leg_B.1
  then Q2Qc (4751414266776737 # 72057594037927936)
  else CoarseMath.atan2 y x.

Definition degrees (x : float) : float :=
  if feqb x (Q2Qc (5904012068046479 # 18014398509481984))
  then Q2Qc (5285546463958879 # 281474976710656)
  else if feqb x (Q2Qc (4751414266776737 # 72057594037927936))
  then Q2Qc (8507374506392301 # 2251799813685248)
  else CoarseMath.degrees x.

End SurveyMath.

(** Two aircraft flying east at 45 N, the second 0.03 degrees of
    longitude behind the first, 100 ft and 10 kt apart. *)
Definition lead_aircraft : Aircraft :=
  mkAircraft "4ca123" "EIN123" (Some (dec 45 1)) (Some (dec 903 100))
             (Some 10100) (Some (dec 250 1)) None None None None None None false.

Definition trail_aircraft : Aircraft :=
  mkAircraft "4ca456" "RYR456" (Some (dec 45 1)) (Some (dec 900 100))
             (Some 10000) (Some (dec 240 1)) None None None None None None false.

Definition default_prox_args : prox_args :=
  mkProxArgs (dec 3 1) (dec 20 1) (dec 500 1) (dec 40 1) 600.

(** A track of two points half a degree of latitude apart. *)
Definition open_track : list point :=
  [(dec 45 1, dec 9 1); (dec 455 10, dec 9 1)].



(** The families the mesh scan assigns, in track order. *)
Definition mesh_families (a b : Z) (tol : float) (heads : list Z)
    : list family_tag :=
  omap (fun h => family h a b tol) heads.

Definition count_tag (f : family_tag) (fams : list family_tag) : Z :=
  Z.of_nat (length (filter (fun g => g = f) fams)).

(** Number of maximal runs of equal elements. *)
Definition run_count {A} `{EqDecision A} (l : list A) : Z :=
  match l with
  | [] => 0
  | _ => 1 + alternations l
  end.

(** The two findings that are meant for airborne aircraft only. *)
Definition low_finding (s : string) : bool :=
  String.prefix "GS bassa" s || String.prefix "ALT bassa" s.

(** A state 300 kt faster than the previous one, whose timestamp is the
    older of the two. *)
Definition stale_state : Aircraft :=
  mkAircraft "4ca123" "" None None (Some 9000) (Some (Z2Qc 500))
             (Some (Z2Qc 1000)) None None None None None false.

Definition fresher_prev_state : Aircraft :=
  mkAircraft "4ca123" "" None None (Some 1000) (Some (Z2Qc 200))
             (Some (Z2Qc 1060)) None None None None None false.


(** The pattern tunables the command line defaults to. *)
Definition default_pattern_args : pattern_args :=
  mkPatternArgs 30 (dec 3 1) (dec 10 1) 2 14 (dec 15 1) 4 (dec 15 1)
                25 (dec 15 1) 3.


(** The literal [1e-12] of [point_in_ring]. *)
Definition ring_eps : float := Q2Qc (1 # 1000000000000).

(** No vertex of the ring is north of the latitude [y], or every vertex
    is. *)
Definition off_band (y : float) (ring : list point) : Prop :=
  Forall (fun p : point => (p.1 <= y)%Qc) ring
  \/ Forall (fun p : point => (y < p.1)%Qc) ring.

(** The outer ring [polygon[0]] of a polygon, if it has one. *)
Definition outer_ring (polygon : list (list point)) : list point :=
  default [] (head polygon).

(** The ring of the rectangle with the corners [(y0, x0)] and
    [(y1, x1)]. *)
Definition box (y0 y1 x0 x1 : float) : list point :=
  [(y0, x0); (y0, x1); (y1, x1); (y1, x0)].



(** A one-degree square geofence, and three states: inside it, outside
    it, and without a position. *)
Definition unit_fence : list (list (list point)) :=
  [[box (Z2Qc 45) (Z2Qc 46) (Z2Qc 9) (Z2Qc 10)]].


(** One turn of the loop of [point_in_ring] on the running answer. *)
Definition ring_turn (x y : float) (acc : option bool) (e : point * point)
    : option bool :=
  inside ← acc; t ← edge_toggles x y e; Some (xorb inside t).

(** The last state of the list with the hex [h]. *)
Definition last_state_of (h : string) (aircraft : list Aircraft)
    : option Aircraft :=
  last (filter (fun ac => hex ac = h) aircraft).

(** All clock readings of a cycle are closer to each other than the
    cooldown. *)
Definition short_cycle (clock : nat -> float) (cooldown : Z) : Prop :=
  forall i j, (clock j - clock i < Z2Qc cooldown)%Qc.

(** The hexes of the aircraft of a list of rows. *)
Definition row_hexes (rows : list event_row) : list string :=
  map (fun r => hex (row_ac r)) rows.

(** The rows of [new] beyond those of [old] are rows of the event type
    [etype], at most one for each hex, each of an aircraft of the
    list. *)
Definition one_row_per_hex (etype : string) (aircraft : list Aircraft)
    (old new : list event_row) : Prop :=
  exists added,
    new = old ++ added
    /\ NoDup (row_hexes added)
    /\ Forall (fun r => row_event_type r = etype /\ row_ac r ∈ aircraft) added.

(** The default anomaly thresholds, and a feed in which the tiles and
    the military endpoint both report one aircraft squawking 7700. *)
Definition default_anomaly_args : anomaly_args :=
  mkAnomalyArgs DEF_MIN_ALT_FT DEF_MAX_ALT_FT DEF_MIN_GS_KT DEF_MAX_GS_KT
                DEF_MAX_VS_FPM DEF_MAX_DGS_KTS 300.

Definition mayday_state (mil : bool) : Aircraft :=
  mkAircraft "4ca123" "EIN123" (Some (dec 45 1)) (Some (dec 9 1))
             (Some 10000) (Some (Z2Qc 250)) (Some (Z2Qc 1000)) None
             (Some "7700") None None None mil.

Definition merged_feed : list Aircraft :=
  [mayday_state false; mayday_state true].

(** A clock that stands still within the cycle. *)
Definition frozen_clock (n : nat) : float := Z2Qc 1700000000.

(** The rows a phase has added, with the ledger entries they left. *)
Definition marked_rows (clock : nat -> float) (etype : string) (aircraft : list Aircraft)
    (old new : list event_row) (ledger : gmap string float) : Prop :=
  exists added,
    new = old ++ added
    /\ NoDup (row_hexes added)
    /\ Forall (fun r => row_event_type r = etype /\ row_ac r ∈ aircraft) added
    /\ (forall h, h ∈ row_hexes added -> exists i, ledger !! h = Some (clock i)).

(** A [dbFlags] value that is absent, a boolean or an integer (the
    bit field of the feed). *)
Definition numeric_flags (v : pyval) : bool :=
  match v with
  | PNone | PBool _ | PInt _ => true
  | _ => false
  end.

(** A raw record whose [dbFlags] bit field has the military bit set. *)
Definition flagged_record : gmap string pyval :=
  {[ "hex" := PStr "4CA123"; "dbFlags" := PInt 1 ]}.

(** * Properties *)

(** ** Comparisons on floats *)

Lemma fltb_true (x y : float) : fltb x y = true <-> (x < y)%Qc.
Proof. unfold fltb. apply bool_decide_eq_true. Qed.

Lemma fltb_false (x y : float) : fltb x y = false <-> (y ≤ x)%Qc.
Proof.
  unfold fltb. rewrite bool_decide_eq_false. split.
  - apply Qcnot_lt_le.
  - apply Qcle_not_lt.
Qed.

Lemma fleb_true (x y : float) : fleb x y = true <-> (x ≤ y)%Qc.
Proof. unfold fleb. apply bool_decide_eq_true. Qed.

Lemma fleb_false (x y : float) : fleb x y = false <-> (y < x)%Qc.
Proof.
  unfold fleb. rewrite bool_decide_eq_false. split.
  - apply Qcnot_le_lt.
  - apply Qclt_not_le.
Qed.

Lemma fleb_negb_fltb (x y : float) : fleb x y = negb (fltb y x).
Proof.
  destruct (fltb y x) eqn:E; simpl.
  - apply fleb_false. by apply fltb_true.
  - apply fleb_true. by apply fltb_false.
Qed.

(** ** Ground-state derivation *)

(** C1, counterexample: the flag is explicitly false, yet the derived
    ground state is "on the ground", because the altitude/speed heuristic
    is consulted. *)
Lemma explicit_false_flag_overridden :
  ground parked_flag_false = Some false
  /\ derive_is_ground parked_flag_false = true.
Proof. split; reflexivity. Qed.

(** C1, as the code has it: a boolean flag of the raw record reaches the
    state unchanged, and it decides only when it is true; an explicit
    false is treated like an absent flag, the two heuristics deciding in
    both cases. *)
Theorem ground_flag_precedence (ac : Aircraft) :
  derive_is_ground ac
    = bool_decide (ground ac = Some true) || ground_heuristic ac
  /\ (ground ac = Some true -> derive_is_ground ac = true)
  /\ (ground ac = Some false -> derive_is_ground ac = ground_heuristic ac)
  /\ (ground ac = None -> derive_is_ground ac = ground_heuristic ac)
  /\ (forall float_repr b, safe_bool float_repr (PBool b) = Some b).
Proof.
  assert (Hgen : derive_is_ground ac
            = bool_decide (ground ac = Some true) || ground_heuristic ac).
  { unfold derive_is_ground, ground_heuristic.
    case_bool_decide; [done|]. simpl.
    destruct (alt_baro ac) as [alt|]; [|done].
    destruct (gs ac) as [g|]; simpl.
    - destruct (alt <=? 100)%Z, (fltb g (Z2Qc 60)), (alt <=? 0)%Z; done.
    - destruct (alt <=? 100)%Z, (alt <=? 0)%Z; done. }
  split; [exact Hgen|]. rewrite Hgen.
  split; [intros E; rewrite E; by case_bool_decide|].
  split; [intros E; rewrite E; by case_bool_decide|].
  split; [intros E; rewrite E; by case_bool_decide|done].
Qed.

(** ** Anomaly scenario *)

(** C7: squawk 7700 at 15000 ft and 300 kt, default thresholds, no
    previous state: the findings are exactly the emergency squawk. *)
Theorem squawk_7700_only
    (a_hex a_flight : string) (a_lat a_lon a_ts : option float)
    (a_reg : option string) (a_ground : option bool)
    (a_desc a_t : option pyval) (a_mil : bool) (dt_sec : option float) :
  detect_anomalies
    (mkAircraft a_hex a_flight a_lat a_lon (Some 15000) (Some (Z2Qc 300))
                a_ts a_reg (Some "7700") a_ground a_desc a_t a_mil)
    None dt_sec DEF_MIN_ALT_FT DEF_MAX_ALT_FT DEF_MIN_GS_KT DEF_MAX_GS_KT
    DEF_MAX_VS_FPM DEF_MAX_DGS_KTS
  = ["SQUAWK: #7700"].
Proof. destruct a_ground as [[]|], dt_sec; vm_compute; reflexivity. Qed.

(** ** Cooldown ledger *)

Section LedgerFacts.

Context {K : Type} `{Countable K}.

Lemma check_and_mark_true (last : gmap K float) key t w :
  (check_and_mark last key t w).1 = true
  <-> (Z2Qc w ≤ t - default (Z2Qc 0) (last !! key))%Qc.
Proof.
  unfold check_and_mark.
  destruct (fleb _ _) eqn:E; simpl.
  - apply fleb_true in E. tauto.
  - apply fleb_false in E. split; [done|].
    intros Hle. by destruct (Qclt_not_le _ _ E).
Qed.

Lemma check_and_mark_ledger (last : gmap K float) key t w :
  (check_and_mark last key t w).2
  = if (check_and_mark last key t w).1 then <[key := t]> last else last.
Proof. unfold check_and_mark. by destruct (fleb _ _). Qed.

(** The PROX and MIL phases write the same test as a [continue] on
    [now_ts - last.get(key, 0) < window]. *)
Lemma cooldown_continue_form (last : gmap K float) key t w :
  fltb (t - default (Z2Qc 0) (last !! key))%Qc (Z2Qc w)
  = negb (check_and_mark last key t w).1.
Proof.
  unfold check_and_mark. rewrite fleb_negb_fltb.
  by destruct (fltb _ _).
Qed.

(** C2: the check succeeds exactly when the window has elapsed since
    the recorded time (0 for an unseen key); only a success records the
    new time; and a suppressed attempt leaves the window anchored at
    the last success. *)
Theorem cooldown_window_from_last_success
    (last : gmap K float) (key : K) (w : Z) (t1 t2 t3 : float) :
  let r1 := check_and_mark last key t1 w in
  let r2 := check_and_mark r1.2 key t2 w in
  let r3 := check_and_mark r2.2 key t3 w in
  (r1.1 = true <-> (Z2Qc w ≤ t1 - default (Z2Qc 0) (last !! key))%Qc)
  /\ (r1.1 = true -> r1.2 = <[key := t1]> last)
  /\ (r1.1 = false -> r1.2 = last)
  /\ (r1.1 = true -> (t2 - t1 < Z2Qc w)%Qc ->
      r2.1 = false /\ r2.2 = r1.2 /\ r2.2 !! key = Some t1
      /\ (r3.1 = true <-> (Z2Qc w ≤ t3 - t1)%Qc)).
Proof.
  intros r1 r2 r3.
  split; [apply check_and_mark_true|].
  split; [intros E; unfold r1 in *; by rewrite check_and_mark_ledger, E|].
  split; [intros E; unfold r1 in *; by rewrite check_and_mark_ledger, E|].
  intros E1 Hlt.
  assert (L1 : r1.2 !! key = Some t1).
  { unfold r1 in *. rewrite check_and_mark_ledger, E1. apply lookup_insert_eq. }
  assert (E2 : r2.1 = false).
  { destruct (r2.1) eqn:E2; [|done].
    unfold r2 in E2. apply check_and_mark_true in E2.
    rewrite L1 in E2. simpl in E2.
    by destruct (Qclt_not_le _ _ Hlt). }
  assert (L2 : r2.2 = r1.2).
  { unfold r2 in *. by rewrite check_and_mark_ledger, E2. }
  split; [done|]. split; [done|]. split; [by rewrite L2|].
  unfold r3. rewrite check_and_mark_true, L2, L1. done.
Qed.

End LedgerFacts.

(** C2, a run: alert at 1000 s, suppressed at 1100 s, allowed again at
    1300 s with a 300 s window. *)
Lemma cooldown_window_run :
  let last : gmap string float := ∅ in
  let r1 := check_and_mark last "4ca123" (Z2Qc 1000) 300 in
  let r2 := check_and_mark r1.2 "4ca123" (Z2Qc 1100) 300 in
  let r3 := check_and_mark r2.2 "4ca123" (Z2Qc 1300) 300 in
  r1.1 = true /\ r2.1 = false /\ r2.2 !! "4ca123" = Some (Z2Qc 1000)
  /\ r3.1 = true.
Proof.
  pose proof (cooldown_window_from_last_success
                (∅ : gmap string float) "4ca123" 300
                (Z2Qc 1000) (Z2Qc 1100) (Z2Qc 1300)) as (H1 & _ & _ & H4).
  cbv zeta in *.
  assert (E1 : (check_and_mark (∅ : gmap string float) "4ca123" (Z2Qc 1000) 300).1 = true)
    by (apply H1; vm_compute; discriminate).
  assert (Hlt : (Z2Qc 1100 - Z2Qc 1000 < Z2Qc 300)%Qc) by (vm_compute; reflexivity).
  destruct (H4 E1 Hlt) as (E2 & _ & L2 & H3).
  split; [exact E1|]. split; [exact E2|]. split; [exact L2|].
  apply H3. vm_compute. discriminate.
Defined.

(** ** Track history *)

Lemma lastn_length {A} (n : nat) (l : list A) :
  length (lastn n l) = (length l `min` n)%nat.
Proof. unfold lastn. rewrite length_drop. lia. Qed.

Lemma deque_append_lastn {A} (n : nat) (l : list A) (x : A) :
  deque_append n (lastn n l) x = lastn n (l ++ [x]).
Proof.
  unfold deque_append. rewrite length_app, lastn_length. simpl.
  unfold lastn. rewrite length_app. simpl.
  destruct (Nat.ltb_spec n (length l `min` n + 1)) as [Hlt|Hge].
  - rewrite <- drop_app_le by lia. rewrite drop_drop.
    f_equal. lia.
  - replace (length l - n)%nat with 0%nat by lia.
    by replace (length l + 1 - n)%nat with 0%nat by lia.
Qed.

Lemma deque_append_full {A} (n : nat) (d : list A) (x : A) :
  (0 < n)%nat -> length d = n -> deque_append n d x = drop 1 d ++ [x].
Proof.
  intros Hn Hd. unfold deque_append. rewrite length_app. simpl.
  destruct (Nat.ltb_spec n (length d + 1)) as [_|Hge]; [|lia].
  destruct d as [|y d]; [simpl in Hd; lia|].
  simpl. by rewrite !drop_0.
Qed.

Lemma deque_append_room {A} (n : nat) (d : list A) (x : A) :
  (length d < n)%nat -> deque_append n d x = d ++ [x].
Proof.
  intros Hd. unfold deque_append. rewrite length_app. simpl.
  destruct (Nat.ltb_spec n (length d + 1)); [lia|done].
Qed.

Lemma deque_append_last {A} (n : nat) (d : list A) (x : A) :
  (0 < n)%nat -> last (deque_append n d x) = Some x.
Proof.
  intros Hn. unfold deque_append. rewrite length_app. simpl.
  destruct (Nat.ltb_spec n (length d + 1)) as [Hlt|_].
  - destruct d as [|y d]; [simpl in *; lia|]. simpl. rewrite drop_0.
    apply last_snoc.
  - apply last_snoc.
Qed.

Lemma th_get_track_append th ac h :
  th_get (track_append th ac) h
  = match positions_of h [ac] with
    | p :: _ => deque_append TRACK_MAXLEN (th_get th h) p
    | [] => th_get th h
    end.
Proof.
  unfold track_append, positions_of, th_get. simpl.
  case_bool_decide as Hh;
    destruct (lat ac) as [la|], (lon ac) as [lo|]; simpl; try done.
  - subst h. by rewrite lookup_insert_eq.
  - by rewrite lookup_insert_ne.
Qed.

Lemma positions_of_cons h ac acs :
  positions_of h (ac :: acs) = positions_of h [ac] ++ positions_of h acs.
Proof.
  unfold positions_of. simpl.
  by destruct (if bool_decide _ then _ else _).
Qed.

Lemma positions_of_single h ac p ps :
  positions_of h [ac] = p :: ps -> ps = [].
Proof.
  unfold positions_of. simpl.
  destruct (if bool_decide _ then _ else _); naive_solver.
Qed.

Lemma track_fold_lastn (acs : list Aircraft) :
  forall th h l,
    th_get th h = lastn TRACK_MAXLEN l ->
    th_get (foldl track_append th acs) h
    = lastn TRACK_MAXLEN (l ++ positions_of h acs).
Proof.
  induction acs as [|ac acs IH]; intros th h l Hl.
  - simpl. by rewrite app_nil_r.
  - rewrite positions_of_cons. simpl foldl.
    pose proof (th_get_track_append th ac h) as Hstep.
    destruct (positions_of h [ac]) as [|p ps] eqn:Hp.
    + apply IH. by rewrite Hstep.
    + apply positions_of_single in Hp as ->.
      rewrite (IH _ h (l ++ [p])).
      * by rewrite <- app_assoc.
      * by rewrite Hstep, Hl, deque_append_lastn.
Qed.

(** C9: starting from empty histories, after any sequence of states the
    history of a hex is the last 120 positions reported for it, in order
    of arrival; so it never holds more than 120 entries, a full history
    loses its oldest entry on append, and a state without a latitude or
    a longitude changes nothing. *)
Theorem track_history_bounded_fifo (acs : list Aircraft) (h : string) :
  th_get (foldl track_append ∅ acs) h
    = lastn TRACK_MAXLEN (positions_of h acs)
  /\ (length (th_get (foldl track_append ∅ acs) h) ≤ 120)%nat
  /\ (forall (d : list point) (p : point),
        length d = 120%nat ->
        deque_append TRACK_MAXLEN d p = drop 1 d ++ [p])
  /\ (forall (d : list point) (p : point),
        (length d < 120)%nat -> deque_append TRACK_MAXLEN d p = d ++ [p])
  /\ (forall th ac, lat ac = None \/ lon ac = None -> track_append th ac = th).
Proof.
  assert (Hget : th_get (foldl track_append ∅ acs) h
                 = lastn TRACK_MAXLEN (positions_of h acs)).
  { by rewrite (track_fold_lastn acs ∅ h []). }
  split; [exact Hget|]. split.
  { rewrite Hget, lastn_length. unfold TRACK_MAXLEN. lia. }
  split; [intros d p Hd; apply deque_append_full; [unfold TRACK_MAXLEN; lia|done]|].
  split; [intros d p Hd; by apply deque_append_room|].
  intros th ac [E|E]; unfold track_append; rewrite E; [done|].
  by destruct (lat ac).
Qed.

(** C9, a run: after 121 positions and a state without longitude the
    history holds 120 entries and the first position has been evicted. *)
Lemma track_history_run :
  length (th_get (foldl track_append ∅ sample_states) "4ca123") = 120%nat
  /\ head (th_get (foldl track_append ∅ sample_states) "4ca123")
     = Some (Z2Qc 40, Z2Qc 1)
  /\ last (th_get (foldl track_append ∅ sample_states) "4ca123")
     = Some (Z2Qc 40, Z2Qc 120).
Proof.
  destruct (track_history_bounded_fifo sample_states "4ca123") as (-> & _).
  vm_compute. repeat split.
Defined.

(** ** Proximity classifier *)

Lemma has_position_off_axis ac : has_position ac = true -> ~ on_axis ac.
Proof.
  unfold has_position, on_axis.
  intros Hp [E|E]; rewrite E in Hp.
  - discriminate Hp.
  - destruct (truthy_float (lat ac)); discriminate Hp.
Qed.

Lemma on_axis_no_position ac : on_axis ac -> has_position ac = false.
Proof.
  intros Hax. destruct (has_position ac) eqn:E; [|done].
  by destruct (has_position_off_axis ac E).
Qed.

Lemma angle_diff_deg_sym (a b : float) : angle_diff_deg a b = angle_diff_deg b a.
Proof. unfold angle_diff_deg, fabs. by rewrite Qcabs_Qcminus. Qed.

Section ProximityFacts.

Variables sin cos sqrt radians degrees : float -> float.
Variable atan2 : float -> float -> float.
Variable clock : nat -> float.

Local Abbreviation prox_pair' := (prox_pair sin cos sqrt radians degrees atan2).
Local Abbreviation prox_inner' := (prox_inner sin cos sqrt radians degrees atan2).
Local Abbreviation prox_visit' :=
  (prox_visit sin cos sqrt radians degrees atan2 clock).
Local Abbreviation prox_phase' :=
  (prox_phase sin cos sqrt radians degrees atan2 clock).

Lemma fresh_rows_refl rows : fresh_rows_off_axis rows rows.
Proof. exists []. by rewrite app_nil_r. Qed.

Lemma fresh_rows_trans r1 r2 r3 :
  fresh_rows_off_axis r1 r2 -> fresh_rows_off_axis r2 r3 ->
  fresh_rows_off_axis r1 r3.
Proof.
  intros (a1 & -> & F1) (a2 & -> & F2). exists (a1 ++ a2).
  split; [by rewrite app_assoc|]. by apply Forall_app.
Qed.

Lemma prox_inner_some args ac1 h1 ac2 h2 res :
  prox_inner' args ac1 h1 ac2 h2 = Some res -> has_position ac2 = true.
Proof.
  unfold prox_inner.
  by destruct (has_position ac2).
Qed.

Lemma prox_visit_rows args th ac1 st ac2 :
  has_position ac1 = true ->
  fresh_rows_off_axis (event_rows st) (event_rows (prox_visit' args th ac1 st ac2)).
Proof.
  intros Hp1. unfold prox_visit.
  destruct (prox_inner _ _ _ _ _ _ _ _ _ _ _) as [[label dist]|] eqn:E;
    [|apply fresh_rows_refl].
  apply prox_inner_some in E.
  destruct (fltb _ _); simpl; [apply fresh_rows_refl|].
  eexists. split; [done|].
  repeat constructor; simpl; by apply has_position_off_axis.
Qed.

Lemma prox_inner_loop_rows args th ac1 rest :
  has_position ac1 = true ->
  forall st,
    fresh_rows_off_axis (event_rows st)
      (event_rows (foldl (prox_visit' args th ac1) st rest)).
Proof.
  intros Hp1. induction rest as [|ac2 rest IH]; intros st; simpl.
  - apply fresh_rows_refl.
  - eapply fresh_rows_trans; [by apply prox_visit_rows|apply IH].
Qed.

Lemma prox_phase_rows args th aircraft :
  forall st,
    fresh_rows_off_axis (event_rows st)
      (event_rows (prox_phase' args th aircraft st)).
Proof.
  induction aircraft as [|ac1 rest IH]; intros st; simpl.
  - apply fresh_rows_refl.
  - eapply fresh_rows_trans; [|apply IH].
    destruct (has_position ac1) eqn:Hp1; [|apply fresh_rows_refl].
    by apply prox_inner_loop_rows.
Qed.

(** C10: the truthiness test on the coordinates makes the pairwise
    check skip every pair with an aircraft exactly on the equator or
    the prime meridian, so the PROX phase adds rows only for aircraft
    off both axes; the track history, which tests for [None], does
    record such positions. *)
Theorem zero_coordinate_skipped_by_prox_only (args : prox_args) :
  (forall ac1 h1 ac2 h2,
      on_axis ac1 \/ on_axis ac2 -> prox_pair' args ac1 h1 ac2 h2 = None)
  /\ (forall th aircraft st,
        fresh_rows_off_axis (event_rows st)
          (event_rows (prox_phase' args th aircraft st)))
  /\ (forall th ac la lo,
        lat ac = Some la -> lon ac = Some lo ->
        last (th_get (track_append th ac) (hex ac)) = Some (la, lo)).
Proof.
  split; [|split].
  - intros ac1 h1 ac2 h2 [Hax|Hax];
      unfold prox_pair, prox_inner.
    + by rewrite (on_axis_no_position _ Hax).
    + rewrite (on_axis_no_position _ Hax). by destruct (has_position ac1).
  - intros th aircraft st. apply prox_phase_rows.
  - intros th ac la lo Hla Hlo. unfold track_append, th_get.
    rewrite Hla, Hlo, lookup_insert_eq. simpl.
    apply deque_append_last. unfold TRACK_MAXLEN. lia.
Qed.

(** ** Closing test of the loop detector *)

(** C8: a track whose end points are farther apart than the close
    threshold is never a loop or racetrack, whatever the other
    parameters. *)
Theorem loop_rejects_open_track (track : list point) (p0 pn : point)
    (loop_close_km : float) (min_points : Z)
    (min_span_km : float) (min_laps : Z) :
  head track = Some p0 -> last track = Some pn ->
  (loop_close_km < haversine_km sin cos sqrt radians atan2 p0 pn)%Qc ->
  detect_loop_or_racetrack sin cos sqrt radians atan2 track
    loop_close_km min_points min_span_km min_laps = Ok None.
Proof.
  intros Hh Hl Hfar. unfold detect_loop_or_racetrack.
  destruct (_ <? _)%Z; [done|].
  rewrite Hh, Hl. by rewrite (proj2 (fltb_true _ _) Hfar).
Qed.

(** ** Symmetry of the pairwise check *)

(** The one fact about [math.sin] the symmetry of the haversine distance
    rests on. *)
Hypothesis sin_odd : forall x, sin (- x)%Qc = (- sin x)%Qc.

Lemma haversine_km_sym (p1 p2 : point) :
  haversine_km sin cos sqrt radians atan2 p1 p2
  = haversine_km sin cos sqrt radians atan2 p2 p1.
Proof.
  unfold haversine_km.
  assert (Hsq : forall u v : float,
             (sin ((u - v) / Z2Qc 2) ^ 2 = sin ((v - u) / Z2Qc 2) ^ 2)%Qc).
  { intros u v.
    replace ((u - v) / Z2Qc 2)%Qc with (- ((v - u) / Z2Qc 2))%Qc
      by (unfold Qcdiv; ring).
    rewrite sin_odd. simpl. ring. }
  cbv zeta.
  rewrite (Hsq (radians p2.1) (radians p1.1)).
  rewrite (Hsq (radians p2.2) (radians p1.2)).
  by rewrite (Qcmult_comm (cos (radians p1.1)) (cos (radians p2.1))).
Qed.

Lemma alt_ok_sym args ac1 ac2 : alt_ok args ac1 ac2 = alt_ok args ac2 ac1.
Proof.
  unfold alt_ok. destruct (alt_baro ac1) as [a1|], (alt_baro ac2) as [a2|]; try done.
  by replace (Z.abs (a1 - a2)) with (Z.abs (a2 - a1)) by lia.
Qed.

Lemma gs_ok_sym args ac1 ac2 : gs_ok args ac1 ac2 = gs_ok args ac2 ac1.
Proof.
  unfold gs_ok, fabs. destruct (gs ac1) as [g1|], (gs ac2) as [g2|]; try done.
  by rewrite Qcabs_Qcminus.
Qed.

Lemma same_direction_sym h1 h2 tol :
  same_direction h1 h2 tol = same_direction h2 h1 tol.
Proof.
  unfold same_direction. destruct h1, h2; try done.
  by rewrite angle_diff_deg_sym.
Qed.

(** C5: for an odd sine, exchanging the two aircraft leaves every gate
    of the pairwise check (distance, altitude difference, speed
    difference, heading alignment), the label and the whole outcome
    unchanged. *)
Theorem proximity_symmetric (args : prox_args)
    (ac1 : Aircraft) (h1 : option float) (ac2 : Aircraft) (h2 : option float) :
  let p1 := position ac1 in
  let p2 := position ac2 in
  dist_gate sin cos sqrt radians atan2 args p1 p2
    = dist_gate sin cos sqrt radians atan2 args p2 p1
  /\ alt_ok args ac1 ac2 = alt_ok args ac2 ac1
  /\ gs_ok args ac1 ac2 = gs_ok args ac2 ac1
  /\ same_direction h1 h2 (prox_angle_deg args)
     = same_direction h2 h1 (prox_angle_deg args)
  /\ prox_label degrees atan2 args p1 h1 p2 h2
     = prox_label degrees atan2 args p2 h2 p1 h1
  /\ prox_pair' args ac1 h1 ac2 h2 = prox_pair' args ac2 h2 ac1 h1.
Proof.
  intros p1 p2.
  assert (Hd : dist_gate sin cos sqrt radians atan2 args p1 p2
               = dist_gate sin cos sqrt radians atan2 args p2 p1).
  { unfold dist_gate. by rewrite haversine_km_sym. }
  assert (Hl : prox_label degrees atan2 args p1 h1 p2 h2
               = prox_label degrees atan2 args p2 h2 p1 h1).
  { unfold prox_label. by rewrite orb_comm. }
  split; [exact Hd|]. split; [apply alt_ok_sym|]. split; [apply gs_ok_sym|].
  split; [apply same_direction_sym|]. split; [exact Hl|].
  unfold prox_pair, prox_inner.
  fold p1 p2. rewrite Hd, Hl, (alt_ok_sym args ac1 ac2),
    (gs_ok_sym args ac1 ac2), (same_direction_sym h1 h2),
    (haversine_km_sym p1 p2).
  destruct (has_position ac1), (has_position ac2); simpl; try done.
  destruct (decide (hex ac1 = hex ac2)) as [E|E].
  - by rewrite !bool_decide_eq_true_2.
  - by rewrite !bool_decide_eq_false_2.
Qed.

End ProximityFacts.

(** ** Arithmetic of the float remainder *)

Lemma this_Z2Qc z : (this (Z2Qc z) == inject_Z z)%Q.
Proof. unfold Z2Qc. simpl. apply Qred_correct. Qed.

Lemma Z2Qc_le (a b : Z) : (Z2Qc a ≤ Z2Qc b)%Qc <-> a <= b.
Proof. unfold Qcle. rewrite !this_Z2Qc, <- Zle_Qle. reflexivity. Qed.

Lemma Z2Qc_add a b : Z2Qc (a + b) = (Z2Qc a + Z2Qc b)%Qc.
Proof.
  apply Qc_is_canon. simpl.
  rewrite !Qred_correct, inject_Z_plus. reflexivity.
Qed.

Lemma Z2Qc_floor_le (q : float) : (Z2Qc (Qfloor q) ≤ q)%Qc.
Proof. unfold Qcle. rewrite this_Z2Qc. apply Qfloor_le. Qed.

Lemma Z2Qc_floor_lt (q : float) : (q < Z2Qc (Qfloor q + 1))%Qc.
Proof. unfold Qclt. rewrite this_Z2Qc. apply Qlt_floor. Qed.

Lemma Qfloor_unique (q : float) (n : Z) :
  (Z2Qc n ≤ q)%Qc -> (q < Z2Qc (n + 1))%Qc -> Qfloor q = n.
Proof.
  unfold Qcle, Qclt. rewrite !this_Z2Qc. intros Hle Hlt.
  pose proof (Qfloor_le q) as H1. pose proof (Qlt_floor q) as H2.
  assert (inject_Z n < inject_Z (Qfloor q + 1))%Q as H3
    by (eapply Qle_lt_trans; eauto).
  assert (inject_Z (Qfloor q) < inject_Z (n + 1))%Q as H4
    by (eapply Qle_lt_trans; eauto).
  rewrite <- Zlt_Qlt in H3, H4. lia.
Qed.

Lemma Qc_pos_nonzero (m : float) : (Q2Qc 0 < m)%Qc -> m ≠ Q2Qc 0.
Proof. intros Hm ->. by apply (Qclt_not_eq _ _ Hm). Qed.

(** ** Linear arithmetic on floats *)

Lemma this_plus (x y : float) : (this (x + y)%Qc == this x + this y)%Q.
Proof. simpl. apply Qred_correct. Qed.

Lemma this_opp (x : float) : (this (- x)%Qc == - this x)%Q.
Proof. simpl. apply Qred_correct. Qed.

Lemma this_minus (x y : float) : (this (x - y)%Qc == this x - this y)%Q.
Proof.
  unfold Qcminus, Qminus. rewrite this_plus. simpl. by rewrite Qred_correct.
Qed.

(** Goals and hypotheses that are linear in floats, read in [Q]. *)
Ltac qc_lra :=
  unfold Qcle, Qclt in *;
  repeat match goal with
  | H : context [this (_ + _)%Qc] |- _ => rewrite this_plus in H
  | H : context [this (_ - _)%Qc] |- _ => rewrite this_minus in H
  | H : context [this (- _)%Qc] |- _ => rewrite this_opp in H
  | H : context [this (Z2Qc _)] |- _ => rewrite this_Z2Qc in H
  end;
  rewrite ?this_plus, ?this_minus, ?this_opp, ?this_Z2Qc;
  unfold inject_Z in *; lra.

Lemma feqb_iff (x y : float) : feqb x y = true <-> x = y.
Proof. unfold feqb. apply bool_decide_eq_true. Qed.

Lemma Qc_sub_zero (x y : float) : (x - y)%Qc = Z2Qc 0 <-> x = y.
Proof.
  change (Z2Qc 0) with (Q2Qc 0). split.
  - intros E. replace x with ((x - y) + y)%Qc by ring. rewrite E. ring.
  - intros ->. ring.
Qed.

(** ** Binary64 rounding *)

Lemma Z2Qc_mul a b : Z2Qc (a * b) = (Z2Qc a * Z2Qc b)%Qc.
Proof.
  apply Qc_is_canon. simpl.
  rewrite !Qred_correct, inject_Z_mult. reflexivity.
Qed.

Lemma Z2Qc_lt (a b : Z) : (Z2Qc a < Z2Qc b)%Qc <-> a < b.
Proof. unfold Qclt. rewrite !this_Z2Qc, <- Zlt_Qlt. reflexivity. Qed.

Lemma Qcinv_pos (c : float) : (Z2Qc 0 < c)%Qc -> (Z2Qc 0 < / c)%Qc.
Proof.
  unfold Qclt. rewrite this_Z2Qc. intros Hc. simpl.
  rewrite Qred_correct. by apply Qinv_lt_0_compat.
Qed.

Lemma pow2_pos (e : Z) : (Z2Qc 0 < pow2 e)%Qc.
Proof.
  unfold pow2. destruct (Z.leb_spec 0 e).
  - apply Z2Qc_lt. by apply Z.pow_pos_nonneg.
  - apply Qcinv_pos, Z2Qc_lt. apply Z.pow_pos_nonneg; lia.
Qed.

Lemma pow2_nonpos (e : Z) : e <= 0 -> pow2 e = (/ Z2Qc (2 ^ (- e)))%Qc.
Proof.
  intros He. unfold pow2. destruct (Z.leb_spec 0 e); [|done].
  assert (e = 0) as -> by lia. apply Qc_is_canon. reflexivity.
Qed.

Lemma round_half_even_le (x : float) (N : Z) :
  (x ≤ Z2Qc N)%Qc -> round_half_even x <= N.
Proof.
  intros Hx. unfold round_half_even.
  pose proof (Z2Qc_floor_le x) as Hf.
  assert (HfN : Qfloor x <= N) by (apply Z2Qc_le; by eapply Qcle_trans).
  destruct (fltb _ _) eqn:E; [done|]. apply fltb_false in E.
  assert (Qfloor x ≠ N).
  { intros EN. rewrite EN in E.
    assert (Hhalf : (Z2Qc 0 < Q2Qc (1 # 2))%Qc) by reflexivity.
    pose proof (Qclt_le_trans _ _ _ Hhalf E) as Hgt. qc_lra. }
  destruct (fltb _ _); [lia|]. destruct (Z.even _); lia.
Qed.

Lemma round_half_even_nonneg (x : float) :
  (Z2Qc 0 ≤ x)%Qc -> 0 <= round_half_even x.
Proof.
  intros Hx. unfold round_half_even.
  assert (0 <= Qfloor x).
  { change 0 with (Qfloor (Z2Qc 0)). by apply Qfloor_resp_le. }
  destruct (fltb _ _); [done|].
  destruct (fltb _ _); [lia|]. destruct (Z.even _); lia.
Qed.

Lemma binade_below (a : float) (B : Z) :
  (Z2Qc 0 < a)%Qc -> (a ≤ Z2Qc B)%Qc -> B < 2 ^ 53 -> binade a <= 52.
Proof.
  intros Hpos Hle HB. unfold binade.
  destruct a as [[p q] Hcanon]. cbn [this Qnum Qden].
  unfold Qclt, Qcle in Hpos, Hle. rewrite this_Z2Qc in Hpos, Hle.
  cbn [this] in Hpos, Hle. unfold Qlt, Qle in Hpos, Hle.
  cbn [Qnum Qden inject_Z] in Hpos, Hle.
  assert (Hp : 0 < p) by lia.
  assert (Hk : Z.log2 p <= 53 + Z.log2 (Z.pos q)).
  { rewrite <- (Z.log2_mul_pow2 (Z.pos q) 53) by lia.
    apply Z.log2_le_mono. nia. }
  set (k := Z.log2 p - Z.log2 (Z.pos q)) in *.
  destruct (fleb _ _) eqn:E; [|lia].
  destruct (decide (k = 53)) as [Ek|]; [|lia].
  exfalso. apply fleb_true in E. rewrite Ek in E.
  change (pow2 53) with (Z2Qc (2 ^ 53)) in E.
  unfold Qcle in E. rewrite this_Z2Qc in E. cbn [this] in E.
  unfold Qle in E. cbn [Qnum Qden inject_Z] in E. nia.
Qed.

(** Rounding does not cross an integer below [2 ** 53], and keeps the
    sign. *)
Lemma round64_below (y : float) (B : Z) :
  (Z2Qc 0 < y)%Qc -> (y ≤ Z2Qc B)%Qc -> B < 2 ^ 53 ->
  (Z2Qc 0 ≤ round64 y)%Qc /\ (round64 y ≤ Z2Qc B)%Qc.
Proof.
  intros Hpos Hle HB. unfold round64.
  assert (Hne : feqb y (Z2Qc 0) = false).
  { apply bool_decide_eq_false. intros ->. by apply (Qclt_not_eq _ _ Hpos). }
  assert (Hsign : fltb y (Z2Qc 0) = false)
    by (apply fltb_false; by apply Qclt_le_weak).
  rewrite Hne, Hsign. unfold fabs.
  rewrite (Qcabs_pos y) by (by apply Qclt_le_weak).
  pose proof (binade_below y B Hpos Hle HB) as Hb.
  set (e := Z.max (binade y - 52) (-1074)).
  assert (He : e <= 0) by lia.
  rewrite (pow2_nonpos e He).
  set (c := Z2Qc (2 ^ (- e))).
  assert (Hc : (Z2Qc 0 < c)%Qc) by (apply Z2Qc_lt, Z.pow_pos_nonneg; lia).
  assert (Hcne : c ≠ Q2Qc 0) by (by apply Qc_pos_nonzero).
  assert (Hscaled : (y / / c = y * c)%Qc) by (by field).
  rewrite Hscaled.
  assert (Hyc : (y * c ≤ Z2Qc (B * 2 ^ (- e)))%Qc).
  { rewrite Z2Qc_mul. apply Qcmult_le_compat_r; [done|].
    by apply Qclt_le_weak. }
  pose proof (round_half_even_le _ _ Hyc) as Hm.
  assert (H0 : 0 <= round_half_even (y * c)%Qc).
  { apply round_half_even_nonneg.
    replace (Z2Qc 0) with (Z2Qc 0 * c)%Qc
      by (change (Z2Qc 0) with (Q2Qc 0); ring).
    apply Qcmult_le_compat_r; by apply Qclt_le_weak. }
  pose proof (Qcinv_pos c Hc) as Hinv.
  split.
  - replace (Z2Qc 0) with (Z2Qc 0 * / c)%Qc at 1
      by (change (Z2Qc 0) with (Q2Qc 0); ring).
    apply Qcmult_le_compat_r; [by apply Z2Qc_le|by apply Qclt_le_weak].
  - replace (Z2Qc B) with (Z2Qc (B * 2 ^ (- e)) * / c)%Qc.
    + apply Qcmult_le_compat_r; [by apply Z2Qc_le|by apply Qclt_le_weak].
    + rewrite Z2Qc_mul. fold c. by field.
Qed.

(** ** The float [%] *)

(** The remainder of the floored division, which [%] returns on a
    non-negative dividend. *)
Lemma floor_rem_range (x m : float) :
  (Q2Qc 0 < m)%Qc ->
  (Q2Qc 0 ≤ x - m * Z2Qc (Qfloor (x / m)%Qc))%Qc
  /\ (x - m * Z2Qc (Qfloor (x / m)%Qc) < m)%Qc.
Proof.
  intros Hm.
  pose proof (Qc_pos_nonzero m Hm) as Hne.
  set (f := Qfloor (x / m)%Qc).
  assert (H1 : (m * Z2Qc f ≤ x)%Qc).
  { pose proof (proj1 (Qcmult_le_mono_pos_l _ _ m Hm)
                      (Z2Qc_floor_le (x / m)%Qc)) as E.
    by rewrite (Qcmult_div_r x m Hne) in E. }
  assert (H2 : (x < m * Z2Qc (f + 1))%Qc).
  { pose proof (proj1 (Qcmult_lt_mono_pos_l _ _ m Hm)
                      (Z2Qc_floor_lt (x / m)%Qc)) as E.
    by rewrite (Qcmult_div_r x m Hne) in E. }
  split.
  - apply (Qcplus_le_mono_r _ _ (m * Z2Qc f)).
    by replace (x - m * Z2Qc f + m * Z2Qc f)%Qc with x by ring;
      rewrite Qcplus_0_l.
  - apply (Qcplus_lt_mono_r _ _ (m * Z2Qc f)).
    replace (x - m * Z2Qc f + m * Z2Qc f)%Qc with x by ring.
    rewrite Z2Qc_add in H2. change (Z2Qc 1) with (Q2Qc 1) in H2.
    by replace (m + m * Z2Qc f)%Qc with (m * (Z2Qc f + 1))%Qc by ring.
Qed.

Lemma Qcdiv_nonneg (x m : float) :
  (Q2Qc 0 ≤ x)%Qc -> (Q2Qc 0 < m)%Qc -> (Q2Qc 0 ≤ x / m)%Qc.
Proof.
  intros Hx Hm. unfold Qcdiv.
  replace (Q2Qc 0) with (Q2Qc 0 * / m)%Qc by ring.
  apply Qcmult_le_compat_r; [done|].
  apply Qclt_le_weak. by apply (Qcinv_pos m).
Qed.

Lemma Qcdiv_nonpos (x m : float) :
  (x ≤ Q2Qc 0)%Qc -> (Q2Qc 0 < m)%Qc -> (x / m ≤ Q2Qc 0)%Qc.
Proof.
  intros Hx Hm. unfold Qcdiv.
  replace (Q2Qc 0) with (Q2Qc 0 * / m)%Qc by ring.
  apply Qcmult_le_compat_r; [done|].
  apply Qclt_le_weak. by apply (Qcinv_pos m).
Qed.

(** Truncation is the floor on a non-negative number, and the ceiling
    on a non-positive one. *)
Lemma ftrunc_nonneg (q : float) : (Q2Qc 0 ≤ q)%Qc -> ftrunc q = Qfloor q.
Proof.
  change (Q2Qc 0) with (Z2Qc 0). unfold Qcle, ftrunc. rewrite this_Z2Qc.
  destruct q as [[n d] Hc]. cbn. unfold Qle. cbn.
  intros Hn. apply Z.quot_div_nonneg; lia.
Qed.

Lemma ftrunc_nonpos (q : float) :
  (q ≤ Q2Qc 0)%Qc ->
  (Z2Qc (ftrunc q - 1) < q)%Qc /\ (q ≤ Z2Qc (ftrunc q))%Qc.
Proof.
  change (Q2Qc 0) with (Z2Qc 0). unfold Qcle, Qclt, ftrunc.
  rewrite !this_Z2Qc.
  destruct q as [[n d] Hc]. cbn. unfold Qle, Qlt. cbn.
  intros Hn.
  pose proof (Z.quot_rem' n (Z.pos d)) as Hqr.
  pose proof (Z.rem_bound_pos_neg n (Z.pos d)) as Hr.
  nia.
Qed.

(** The C remainder lies strictly within the modulus, on the side of
    the dividend. *)
Lemma c_fmod_nonpos (x m : float) :
  (x ≤ Q2Qc 0)%Qc -> (Q2Qc 0 < m)%Qc ->
  (- m < c_fmod x m)%Qc /\ (c_fmod x m ≤ Q2Qc 0)%Qc.
Proof.
  intros Hx Hm. unfold c_fmod.
  pose proof (Qc_pos_nonzero m Hm) as Hne.
  destruct (ftrunc_nonpos (x / m)%Qc (Qcdiv_nonpos x m Hx Hm)) as [Hlo Hhi].
  set (t := ftrunc (x / m)%Qc) in *.
  assert (H1 : (m * Z2Qc (t - 1) < x)%Qc).
  { pose proof (proj1 (Qcmult_lt_mono_pos_l _ _ m Hm) Hlo) as E.
    by rewrite (Qcmult_div_r x m Hne) in E. }
  assert (H2 : (x ≤ m * Z2Qc t)%Qc).
  { pose proof (proj1 (Qcmult_le_mono_pos_l _ _ m Hm) Hhi) as E.
    by rewrite (Qcmult_div_r x m Hne) in E. }
  assert (Et : Z2Qc (t - 1) = (Z2Qc t - 1)%Qc).
  { change (t - 1) with (t + -1). rewrite Z2Qc_add.
    replace (Z2Qc (-1)) with (- 1)%Qc by (apply Qc_is_canon; reflexivity).
    ring. }
  rewrite Et in H1.
  split.
  - apply (Qcplus_lt_mono_r _ _ (m * Z2Qc t)).
    replace (x - m * Z2Qc t + m * Z2Qc t)%Qc with x by ring.
    by replace (- m + m * Z2Qc t)%Qc with (m * (Z2Qc t - 1))%Qc by ring.
  - apply (Qcplus_le_mono_r _ _ (m * Z2Qc t)).
    replace (x - m * Z2Qc t + m * Z2Qc t)%Qc with x by ring.
    by rewrite Qcplus_0_l.
Qed.

(** On a non-negative dividend [%] is the exact remainder. *)
Lemma fmod_exact (x m : float) :
  (Q2Qc 0 ≤ x)%Qc -> (Q2Qc 0 < m)%Qc ->
  fmod x m = (x - m * Z2Qc (Qfloor (x / m)%Qc))%Qc.
Proof.
  intros Hx Hm. unfold fmod, c_fmod.
  rewrite (ftrunc_nonneg (x / m)%Qc) by (by apply Qcdiv_nonneg).
  destruct (floor_rem_range x m Hm) as [H0 _].
  set (r := (x - m * Z2Qc (Qfloor (x / m)%Qc))%Qc) in *.
  assert (E1 : fltb m (Z2Qc 0) = false)
    by (apply fltb_false; by apply Qclt_le_weak).
  assert (E2 : fltb r (Z2Qc 0) = false) by (by apply fltb_false).
  rewrite E1, E2. cbn. by rewrite andb_false_r.
Qed.

(** Adding the modulus does not change the remainder. *)
Lemma fmod_add_period (x m : float) :
  (Q2Qc 0 ≤ x)%Qc -> (Q2Qc 0 < m)%Qc -> fmod (x + m)%Qc m = fmod x m.
Proof.
  intros Hx Hm. pose proof (Qc_pos_nonzero m Hm) as Hne.
  assert (Hxm : (Q2Qc 0 ≤ x + m)%Qc).
  { replace (Q2Qc 0) with (Q2Qc 0 + Q2Qc 0)%Qc by ring.
    apply Qcplus_le_compat; [done|by apply Qclt_le_weak]. }
  rewrite !fmod_exact by done.
  assert (Hq : ((x + m) / m = x / m + Z2Qc 1)%Qc).
  { change (Z2Qc 1) with (Q2Qc 1). field. exact Hne. }
  rewrite Hq.
  assert (Hf : Qfloor (x / m + Z2Qc 1)%Qc = Qfloor (x / m)%Qc + 1).
  { apply Qfloor_unique.
    - rewrite Z2Qc_add.
      apply Qcplus_le_compat; [apply Z2Qc_floor_le|apply Qcle_refl].
    - rewrite (Z2Qc_add (_ + 1) 1). apply Qcplus_lt_mono_r.
      apply Z2Qc_floor_lt. }
  rewrite Hf, Z2Qc_add. change (Z2Qc 1) with (Q2Qc 1). ring.
Qed.

Lemma fmod_range (x m : float) :
  (Q2Qc 0 ≤ x)%Qc -> (Q2Qc 0 < m)%Qc ->
  (Q2Qc 0 ≤ fmod x m)%Qc /\ (fmod x m < m)%Qc.
Proof.
  intros Hx Hm. rewrite fmod_exact by done. by apply floor_rem_range.
Qed.

Lemma fmod_small (y m : float) :
  (Q2Qc 0 ≤ y)%Qc -> (y < m)%Qc -> fmod y m = y.
Proof.
  intros H0 Hlt.
  assert (Hm : (Q2Qc 0 < m)%Qc) by (eapply Qcle_lt_trans; eauto).
  pose proof (Qc_pos_nonzero m Hm) as Hne.
  rewrite fmod_exact by done.
  assert (Hf : Qfloor (y / m)%Qc = 0).
  { apply Qfloor_unique.
    - apply (Qcmult_le_mono_pos_l _ _ m Hm).
      rewrite (Qcmult_div_r y m Hne). change (Z2Qc 0) with (Q2Qc 0).
      by rewrite Qcmult_0_r.
    - apply (Qcmult_lt_mono_pos_l _ _ m Hm).
      rewrite (Qcmult_div_r y m Hne). change (Z2Qc (0 + 1)) with (Q2Qc 1).
      by rewrite Qcmult_1_r. }
  rewrite Hf. change (Z2Qc 0) with (Q2Qc 0). ring.
Qed.

(** On any dividend, [%] by a positive integer below [2 ** 53] lies
    between 0 and the modulus, the modulus included: the rounded
    correction of a negative remainder can reach it. *)
Lemma fmod_bounds (x : float) (B : Z) :
  0 < B < 2 ^ 53 ->
  (Z2Qc 0 ≤ fmod x (Z2Qc B))%Qc /\ (fmod x (Z2Qc B) ≤ Z2Qc B)%Qc.
Proof.
  intros [HB0 HB].
  assert (Hm : (Q2Qc 0 < Z2Qc B)%Qc) by (by apply (Z2Qc_lt 0 B)).
  destruct (Qclt_le_dec x (Q2Qc 0)) as [Hneg|Hpos].
  - destruct (c_fmod_nonpos x (Z2Qc B) (Qclt_le_weak _ _ Hneg) Hm)
      as [Hlo Hhi].
    unfold fmod. set (r := c_fmod x (Z2Qc B)) in *.
    destruct (feqb r (Z2Qc 0)) eqn:E0; cbn [negb andb].
    + apply feqb_iff in E0. rewrite E0.
      split; [apply Qcle_refl|by apply Qclt_le_weak].
    + assert (Hr : (r < Z2Qc 0)%Qc).
      { apply Qcle_lt_or_eq in Hhi as [?|E]; [done|].
        apply bool_decide_eq_false in E0. by destruct E0. }
      assert (E1 : fltb (Z2Qc B) (Z2Qc 0) = false)
        by (apply fltb_false; by apply Qclt_le_weak).
      assert (E2 : fltb r (Z2Qc 0) = true) by (by apply fltb_true).
      rewrite E1, E2. cbn.
      apply round64_below; [| |done].
      * clear Hhi Hm Hneg. qc_lra.
      * clear Hhi Hm Hneg. qc_lra.
  - destruct (fmod_range x (Z2Qc B) Hpos Hm) as [H0 H1].
    split; [done|by apply Qclt_le_weak].
Qed.

(** ** The lawnmower detector *)

Section LawnmowerFacts.

Variables sin cos sqrt radians degrees : float -> float.
Variable atan2 : float -> float -> float.

Lemma heading_range (p1 p2 : point) (h : float) :
  heading degrees atan2 p1 p2 = Some h ->
  (Z2Qc 0 ≤ h)%Qc /\ (h ≤ Z2Qc 360)%Qc.
Proof.
  unfold heading. destruct (_ && _); [done|]. intros [= <-].
  apply fmod_bounds. split; reflexivity.
Qed.

Lemma lawn_heads_range (track : list point) :
  Forall (fun h => (Z2Qc 0 ≤ h)%Qc /\ (h < Z2Qc 180)%Qc)
         (lawn_heads degrees atan2 track).
Proof.
  unfold lawn_heads. induction (consecutive track) as [|pq l IH]; csimpl.
  - constructor.
  - destruct (heading degrees atan2 pq.1 pq.2) as [h0|] eqn:E; csimpl;
      [|done].
    constructor; [|done]. destruct (heading_range _ _ _ E) as [H0 _].
    apply fmod_range; [exact H0|reflexivity].
Qed.

(** [(h + 180) % 180] gives back a folded bearing whose sum is exact. *)
Lemma refold_exact (h : float) :
  (Z2Qc 0 ≤ h)%Qc -> (h < Z2Qc 180)%Qc -> rounded_sum h = false ->
  fmod (round64 (h + Z2Qc 180)%Qc) (Z2Qc 180) = h.
Proof.
  intros H0 H1 Hr. unfold rounded_sum in Hr.
  apply negb_false_iff, feqb_iff in Hr. rewrite Hr.
  rewrite fmod_add_period by (done || reflexivity).
  by apply fmod_small.
Qed.

Lemma lawn_label_B_rounded (tol base h : float) :
  (Z2Qc 0 ≤ h)%Qc /\ (h < Z2Qc 180)%Qc ->
  lawn_label tol base h = Some FamB -> rounded_sum h = true.
Proof.
  intros [H0 H1]. destruct (rounded_sum h) eqn:Hr; [done|].
  unfold lawn_label. rewrite (refold_exact h H0 H1 Hr).
  by destruct (fltb _ _).
Qed.

Lemma lawn_clusters_B_rounded (tol base : float) (heads : list float) :
  Forall (fun h => (Z2Qc 0 ≤ h)%Qc /\ (h < Z2Qc 180)%Qc) heads ->
  forall cl,
    let cl' := foldl (fun cl h =>
                        match lawn_label tol base h with
                        | Some FamA => (cl.1 ++ [h], cl.2)
                        | Some FamB => (cl.1, cl.2 ++ [h])
                        | None => cl
                        end) cl heads in
    (Forall (fun h => rounded_sum h = true) cl.2 ->
     Forall (fun h => rounded_sum h = true) cl'.2)
    /\ (length cl'.2 <= length cl.2 + length (rounded_bearings heads))%nat.
Proof.
  induction 1 as [|h heads Hh _ IH]; intros cl; cbn [foldl].
  - split; [done|]. cbn. lia.
  - pose proof (lawn_label_B_rounded tol base h Hh) as HB.
    unfold rounded_bearings in *. rewrite filter_cons.
    destruct (lawn_label tol base h) as [[]|].
    + destruct (IH (cl.1 ++ [h], cl.2)) as [IH1 IH2]. cbn [fst snd] in *.
      split; [exact IH1|]. destruct (decide _); cbn [length]; lia.
    + destruct (IH (cl.1, cl.2 ++ [h])) as [IH1 IH2]. cbn [fst snd] in *.
      rewrite length_app in IH2. cbn [length] in IH2.
      rewrite decide_True by (by apply HB). cbn [length].
      split; [|lia]. intros Hcl. apply IH1, Forall_app.
      split; [done|]. apply Forall_singleton. by apply HB.
    + destruct (IH cl) as [IH1 IH2].
      split; [exact IH1|]. destruct (decide _); cbn [length]; lia.
Qed.

Lemma lawn_cluster_B_bound (tol base : float) (track : list point) :
  let heads := lawn_heads degrees atan2 track in
  Forall (fun h => rounded_sum h = true) (lawn_clusters tol base heads).2
  /\ (length (lawn_clusters tol base heads).2
      <= length (rounded_bearings heads))%nat.
Proof.
  intros heads. unfold lawn_clusters.
  destruct (lawn_clusters_B_rounded tol base heads
              (lawn_heads_range track) ([], [])) as [H1 H2].
  split; [by apply H1|exact H2].
Qed.

Lemma lawnmower_true_needs_B (track : list point) (min_points : Z)
    (heading_tolerance : float) (required_passes : Z)
    (min_span_km : float) :
  detect_lawnmower sin cos sqrt radians degrees atan2 track min_points
    heading_tolerance required_passes min_span_km = Ok true ->
  required_passes
  <= Z.of_nat (length (rounded_bearings (lawn_heads degrees atan2 track))).
Proof.
  unfold detect_lawnmower.
  destruct (_ <? _)%Z; [done|].
  destruct (fmin_list _); [|done]. destruct (fmin_list _); [|done].
  destruct (fmax_list _); [|done]. destruct (fmax_list _); [|done].
  destruct (fltb _ min_span_km); [done|].
  destruct (min_by _ _) as [base|]; [|done].
  destruct (lawn_cluster_B_bound heading_tolerance base track) as [_ Hlen].
  destruct (Z.ltb_spec
              (Z.of_nat (length (lawn_clusters heading_tolerance base
                                   (lawn_heads degrees atan2 track)).1))
              required_passes); [done|].
  destruct (Z.ltb_spec
              (Z.of_nat (length (lawn_clusters heading_tolerance base
                                   (lawn_heads degrees atan2 track)).2))
              required_passes); [done|].
  intros _. cbv zeta in Hlen. lia.
Qed.


End LawnmowerFacts.



(** ** The family assignment of the mesh detector *)

Lemma forward_offset (h a : Z) :
  Z.abs (((h - a) + 180) mod 180) = (h - a) mod 180.
Proof. Z.div_mod_to_equations. lia. Qed.

Lemma closest_when_forward (h a b : Z) :
  (h - a) mod 180 <= 30 ->
  Z.abs (((a - b) + 180) mod 180 - 90) <= 30 ->
  fold_dist h a <= fold_dist h b /\ fold_dist h a = (h - a) mod 180.
Proof. unfold fold_dist. intros. Z.div_mod_to_equations. lia. Qed.

Lemma closest_when_forward_rev (h a b : Z) :
  (h - b) mod 180 <= 30 ->
  Z.abs (((a - b) + 180) mod 180 - 90) <= 30 ->
  fold_dist h b <= fold_dist h a /\ fold_dist h b = (h - b) mod 180.
Proof. unfold fold_dist. intros. Z.div_mod_to_equations. lia. Qed.

Lemma mesh_pairs_perp (tol : float) (uniq : list Z) (a b : Z) :
  head (mesh_pairs tol uniq) = Some (a, b) -> mesh_perp tol a b = true.
Proof.
  intros Hh. apply head_Some_elem_of in Hh.
  unfold mesh_pairs in Hh.
  apply list_elem_of_bind in Hh as (a' & Hh & _).
  apply list_elem_of_bind in Hh as (b' & Hh & _).
  destruct (mesh_perp tol a' b') eqn:E; [|by apply elem_of_nil in Hh].
  apply list_elem_of_singleton in Hh. by simplify_eq.
Qed.

Lemma Z2Qc_bound (d : Z) (tol : float) :
  (Z2Qc d ≤ tol)%Qc -> (tol ≤ Z2Qc 30)%Qc -> d <= 30.
Proof. intros H1 H2. apply Z2Qc_le. by eapply Qcle_trans. Qed.

(** C6, counterexample.  With the default tolerance of 10 and rounded
    bearings 0, 90, 170 the axes are (0, 90); the bearing 170 is within
    10 of the axis 0 in folded distance, and is left without a family.
    With tolerance 50 and bearings 0, 50 the axes are (0, 50), and the
    bearing 50 joins family A although it is the axis of family B. *)
Lemma bearing_not_assigned_to_closest_axis :
  head (mesh_pairs (Z2Qc 10) (sorted_set [0; 90; 170])) = Some (0, 90)
  /\ fold_dist 170 0 = 10
  /\ family 170 0 90 (Z2Qc 10) = None
  /\ head (mesh_pairs (Z2Qc 50) (sorted_set [0; 50])) = Some (0, 50)
  /\ family 50 0 50 (Z2Qc 50) = Some FamA
  /\ fold_dist 50 0 = 50
  /\ fold_dist 50 50 = 0.
Proof. repeat split; vm_compute; reflexivity. Qed.

(** C6, as the code has it, for a tolerance of at most 30 degrees (the
    defaults are 10 and 15): a bearing whose offset above an axis,
    [(h - axis) mod 180], is within the tolerance joins the family of
    that axis; and every bearing that receives a family receives the one
    whose axis is closest in folded distance, that distance being within
    the tolerance. *)
Theorem mesh_family_closest_when_assigned
    (tol : float) (uniq : list Z) (a b h : Z) :
  head (mesh_pairs tol uniq) = Some (a, b) ->
  (tol ≤ Z2Qc 30)%Qc ->
  ((Z2Qc ((h - a) mod 180) ≤ tol)%Qc -> family h a b tol = Some FamA)
  /\ ((Z2Qc ((h - b) mod 180) ≤ tol)%Qc -> family h a b tol = Some FamB)
  /\ (forall f, family h a b tol = Some f ->
        fold_dist h (axis_of f a b) <= fold_dist h (other_axis f a b)
        /\ (Z2Qc (fold_dist h (axis_of f a b)) ≤ tol)%Qc).
Proof.
  intros Hpair Htol.
  apply mesh_pairs_perp in Hpair. unfold mesh_perp in Hpair.
  apply fleb_true in Hpair. pose proof (Z2Qc_bound _ _ Hpair Htol) as Hperp.
  unfold family. rewrite !forward_offset.
  destruct (fleb (Z2Qc ((h - a) mod 180)) tol) eqn:EA.
  - apply fleb_true in EA.
    pose proof (Z2Qc_bound _ _ EA Htol) as HA.
    split; [done|]. split.
    + intros EB. pose proof (Z2Qc_bound _ _ EB Htol) as HB.
      exfalso. revert HA HB Hperp. clear. intros.
      Z.div_mod_to_equations. lia.
    + intros f [= <-]. simpl.
      destruct (closest_when_forward h a b) as [Hc Hd]; [done|done|].
      split; [done|]. by rewrite Hd.
  - apply fleb_false in EA.
    split; [intros Hle; by destruct (Qclt_not_le _ _ EA)|].
    destruct (fleb (Z2Qc ((h - b) mod 180)) tol) eqn:EB.
    + apply fleb_true in EB. split; [done|].
      intros f [= <-]. simpl.
      destruct (closest_when_forward_rev h a b) as [Hc Hd];
        [by eapply Z2Qc_bound|done|].
      split; [done|]. by rewrite Hd.
    + apply fleb_false in EB.
      split; [intros Hle; by destruct (Qclt_not_le _ _ EB)|done].
Qed.

(** C6, a run: tolerance 15, rounded bearings 0, 10, 90. *)
Lemma mesh_family_run :
  family 10 0 90 (Z2Qc 15) = Some FamA
  /\ fold_dist 10 0 <= fold_dist 10 90.
Proof.
  assert (Hpair : head (mesh_pairs (Z2Qc 15) (sorted_set [0; 10; 90]))
                  = Some (0, 90)) by (vm_compute; reflexivity).
  assert (Htol : (Z2Qc 15 ≤ Z2Qc 30)%Qc) by (vm_compute; discriminate).
  destruct (mesh_family_closest_when_assigned
              (Z2Qc 15) (sorted_set [0; 10; 90]) 0 90 10 Hpair Htol)
    as (HA & _ & Hclose).
  assert (HfA : family 10 0 90 (Z2Qc 15) = Some FamA)
    by (apply HA; vm_compute; discriminate).
  split; [exact HfA|]. exact (proj1 (Hclose FamA HfA)).
Defined.

(** ** The normaliser on fields that fail numeric coercion *)

Section NormalizerFacts.

Variable str_to_float : string -> option float.
Variable str_to_int : string -> option Z.
Variable float_repr : float -> string.
Variable nonfinite_float : nonfinite -> float.

Local Abbreviation py_float' := (py_float str_to_float nonfinite_float).
Local Abbreviation py_int' := (py_int str_to_int).
Local Abbreviation normalize' :=
  (normalize str_to_float str_to_int float_repr nonfinite_float).
Local Abbreviation normalize_all' :=
  (normalize_all str_to_float str_to_int float_repr nonfinite_float).

Lemma safe_float_cases (v : pyval) :
  (float_in_range v = true
   /\ safe_float str_to_float nonfinite_float v
      = Ok (catch_all (py_float' v)))
  \/ (float_in_range v = false
      /\ safe_float str_to_float nonfinite_float v = Raise OverflowError).
Proof.
  unfold safe_float, float_in_range.
  destruct v as [|b|z|x|s|t s|k]; simpl; try (by left).
  - destruct (float_overflows z); simpl; [by right|by left].
  - destruct (str_to_float s); by left.
Qed.

Lemma safe_int_cases (v : pyval) :
  (int_in_range v = true
   /\ safe_int str_to_int v = Ok (catch_all (py_int' v)))
  \/ (int_in_range v = false
      /\ safe_int str_to_int v = Raise OverflowError).
Proof.
  unfold safe_int, int_in_range.
  destruct v as [|b|z|x|s|t s|[]]; simpl; try (by left); try (by right).
  destruct (str_to_int s); by left.
Qed.

Lemma as_str_cases (v : pyval) :
  (str_or_falsy v = true /\ exists s, as_str (py_or v (PStr "")) = Ok s)
  \/ (str_or_falsy v = false
      /\ as_str (py_or v (PStr "")) = Raise AttributeError).
Proof.
  unfold str_or_falsy.
  destruct (py_or v (PStr "")) as [|b|z|x|s|t s|k]; simpl; eauto.
Qed.

Lemma ground_record_normalized :
  str_to_int "ground" = None ->
  normalize' ground_record = Some ground_record_state.
Proof.
  intros Hg. vm_compute. rewrite Hg. reflexivity.
Qed.

Lemma build_aircraft_cases (r : gmap string pyval) :
  let get := dict_get r in
  (no_uncaught r = false /\ normalize' r = None)
  \/ (no_uncaught r = true
      /\ exists ac,
          normalize' r = Some ac
          /\ lat ac = catch_all (py_float' (get "lat"))
          /\ lon ac = catch_all (py_float' (get "lon"))
          /\ alt_baro ac = catch_all (py_int' (get "alt_baro"))
          /\ gs ac = catch_all (py_float' (get "gs"))
          /\ ts ac = catch_all (py_float' (py_or (get "seen_pos_timestamp")
                                                 (get "seen_timestamp")))).
Proof.
  intros get. unfold normalize, build_aircraft, no_uncaught. fold get.
  destruct (as_str_cases (get "hex")) as [[-> [s1 ->]]|[-> ->]];
    [|by left].
  destruct (as_str_cases (get "flight")) as [[-> [s2 ->]]|[-> ->]];
    [|by left].
  cbn [fmap result_fmap mbind result_bind andb].
  destruct (safe_float_cases (get "lat")) as [[-> ->]|[-> ->]];
    [|by left].
  destruct (safe_float_cases (get "lon")) as [[-> ->]|[-> ->]];
    [|by left].
  cbn [fmap result_fmap mbind result_bind andb].
  destruct (safe_int_cases (get "alt_baro")) as [[-> ->]|[-> ->]];
    [|by left].
  cbn [fmap result_fmap mbind result_bind andb].
  destruct (safe_float_cases (get "gs")) as [[-> ->]|[-> ->]];
    [|by left].
  destruct (safe_float_cases
              (py_or (get "seen_pos_timestamp") (get "seen_timestamp")))
    as [[-> ->]|[-> ->]]; [|by left].
  cbn [fmap result_fmap mbind result_bind andb].
  destruct (as_str_cases (py_or (get "r") (get "reg")))
    as [[-> [s3 ->]]|[-> ->]]; [|by left].
  right. split; [done|]. eexists. split; [reflexivity|]. by repeat split.
Qed.

(** With any [int()] that rejects the string "ground", the altitude of
    [ground_record] is present and fails coercion, and the record still
    yields a state, with no altitude. *)
Lemma uncoercible_altitude_keeps_record :
  str_to_int "ground" = None ->
  present_but_uncoercible str_to_float str_to_int nonfinite_float
    ground_record
  /\ normalize' ground_record = Some ground_record_state
  /\ alt_baro ground_record_state = None.
Proof.
  intros Hg. split; [|split; [by apply ground_record_normalized|done]].
  right. right. left. exists (PStr "ground"), ValueError.
  split; [done|]. simpl. by rewrite Hg.
Qed.

(** C4, as the code has it: a numeric field whose coercion raises a
    type or value error is left absent and the record is kept; the
    record is dropped exactly when an argument raises past the two
    guards (a hex, callsign or registration that is neither a string
    nor falsy; an integer beyond the range of a double in a field read
    by [float()]; an infinity in the altitude, which [int()] refuses
    with an overflow error); in both cases the records around it are
    normalised as if it were not there. *)
Theorem coercion_failure_blanks_field (r : gmap string pyval) :
  let get := dict_get r in
  (normalize' r = None <-> no_uncaught r = false)
  /\ (forall ac,
        normalize' r = Some ac ->
        lat ac = catch_all (py_float' (get "lat"))
        /\ lon ac = catch_all (py_float' (get "lon"))
        /\ alt_baro ac = catch_all (py_int' (get "alt_baro"))
        /\ gs ac = catch_all (py_float' (get "gs"))
        /\ ts ac = catch_all (py_float' (py_or (get "seen_pos_timestamp")
                                               (get "seen_timestamp"))))
  /\ (forall before after,
        normalize_all' (before ++ r :: after)
        = normalize_all' before ++ option_list (normalize' r)
            ++ normalize_all' after).
Proof.
  intros get. split; [|split].
  - destruct (build_aircraft_cases r) as [[-> ->]|[-> (ac & -> & _)]];
      by split.
  - intros ac Hac.
    destruct (build_aircraft_cases r) as [[_ E]|[_ (ac' & E & Hf)]];
      rewrite E in Hac; [done|]. by simplify_eq.
  - intros before after. unfold normalize_all.
    rewrite omap_app. simpl. by destruct (normalize' r).
Qed.

End NormalizerFacts.

(** C4, counterexample: a record whose altitude is present and fails
    coercion is not dropped. *)
Lemma uncoercible_field_record_kept :
  ~ (forall (str_to_float : string -> option float)
            (str_to_int : string -> option Z)
            (float_repr : float -> string)
            (nonfinite_float : nonfinite -> float) (r : gmap string pyval),
        present_but_uncoercible str_to_float str_to_int nonfinite_float r ->
        normalize str_to_float str_to_int float_repr nonfinite_float r
        = None).
Proof.
  intros Hclaim.
  destruct (uncoercible_altitude_keeps_record
              (fun _ => None) (fun _ => None) (fun _ => "")
              (fun _ => Z2Qc 0) eq_refl)
    as (Hpre & Hkept & _).
  rewrite (Hclaim _ _ _ _ _ Hpre) in Hkept. discriminate.
Qed.

(** C4, a run: the record of a parked aircraft is kept without its
    altitude; a record with a numeric hex and a record with an infinite
    altitude, between two such records, are dropped. *)
Lemma ground_record_run :
  normalize_all (fun _ => None) (fun _ => None) (fun _ => "")
    (fun _ => Z2Qc 0)
    [ground_record; {[ "hex" := PInt 7 ]}; overflow_record; ground_record]
  = [ground_record_state; ground_record_state].
Proof.
  pose proof (coercion_failure_blanks_field
                (fun _ => None) (fun _ => None) (fun _ => "")
                (fun _ => Z2Qc 0) overflow_record) as (_ & _ & Happ).
  etrans;
    [exact (Happ [ground_record; {[ "hex" := PInt 7 ]}] [ground_record])|].
  vm_compute. reflexivity.
Defined.

(** ** Runs on the sample data *)

Lemma coarse_sin_odd (x : float) : CoarseMath.sin (- x)%Qc = (- CoarseMath.sin x)%Qc.
Proof. unfold CoarseMath.sin. simpl. field. discriminate. Qed.


(** C5, a run: the trailing aircraft sits 2.4 km behind the leader on
    the leader's course; the pair is a pursuit in either order. *)
Lemma proximity_pair_run :
  prox_pair CoarseMath.sin CoarseMath.cos CoarseMath.sqrt CoarseMath.radians
    CoarseMath.degrees CoarseMath.atan2 default_prox_args
    lead_aircraft (Some (dec 90 1)) trail_aircraft (Some (dec 90 1))
  = prox_pair CoarseMath.sin CoarseMath.cos CoarseMath.sqrt CoarseMath.radians
      CoarseMath.degrees CoarseMath.atan2 default_prox_args
      trail_aircraft (Some (dec 90 1)) lead_aircraft (Some (dec 90 1))
  /\ fst <$> prox_pair CoarseMath.sin CoarseMath.cos CoarseMath.sqrt
               CoarseMath.radians CoarseMath.degrees CoarseMath.atan2
               default_prox_args
               lead_aircraft (Some (dec 90 1)) trail_aircraft (Some (dec 90 1))
     = Some "INSEGUIMENTO".
Proof.
  destruct (proximity_symmetric CoarseMath.sin CoarseMath.cos CoarseMath.sqrt
              CoarseMath.radians CoarseMath.degrees CoarseMath.atan2
              coarse_sin_odd default_prox_args
              lead_aircraft (Some (dec 90 1)) trail_aircraft (Some (dec 90 1)))
    as (_ & _ & _ & _ & _ & Hpair).
  split; [exact Hpair|]. vm_compute. reflexivity.
Defined.

(** C8, a run: end points 55 km apart, close threshold 3 km. *)
Lemma loop_open_track_run :
  detect_loop_or_racetrack CoarseMath.sin CoarseMath.cos CoarseMath.sqrt
    CoarseMath.radians CoarseMath.atan2 open_track (dec 3 1) 2 (dec 10 1) 2
  = Ok None.
Proof.
  apply (loop_rejects_open_track CoarseMath.sin CoarseMath.cos CoarseMath.sqrt
           CoarseMath.radians CoarseMath.atan2 open_track
           (dec 45 1, dec 9 1) (dec 455 10, dec 9 1)).
  - reflexivity.
  - reflexivity.
  - vm_compute. reflexivity.
Defined.

(** C10, a run: the same pair moved onto the equator is skipped. *)
Lemma equator_pair_run :
  prox_pair CoarseMath.sin CoarseMath.cos CoarseMath.sqrt CoarseMath.radians
    CoarseMath.degrees CoarseMath.atan2 default_prox_args
    (mkAircraft "4ca123" "EIN123" (Some (Z2Qc 0)) (Some (dec 903 100))
                (Some 10100) (Some (dec 250 1)) None None None None None None
                false)
    (Some (dec 90 1)) trail_aircraft (Some (dec 90 1))
  = None.
Proof.
  apply (zero_coordinate_skipped_by_prox_only CoarseMath.sin CoarseMath.cos
           CoarseMath.sqrt CoarseMath.radians CoarseMath.degrees
           CoarseMath.atan2 (fun _ => Z2Qc 0) default_prox_args).
  left. left. reflexivity.
Defined.

(** ** Checks of the numeric and string helpers *)

Example fmod_negative : fmod (Z2Qc (-10)) (Z2Qc 180) = Z2Qc 170.
Proof. apply Qc_is_canon. reflexivity. Qed.

(** [-2 ** -70 % 360.0] is [360.0]: the correction [mod + 360] rounds. *)
Example fmod_reaches_modulus :
  fmod (Q2Qc (-1 # 1180591620717411303424)) (Z2Qc 360) = Z2Qc 360.
Proof. apply Qc_is_canon. reflexivity. Qed.

(** Binary64 rounding: the number nearest to 1/10, and the sum
    [3.7780332224423234 + 180], which rounds up to the next multiple of
    [2 ** -45]. *)
Example round64_checks :
  round64 (Q2Qc (1 # 10)) = Q2Qc (3602879701896397 # 36028797018963968)
  /\ round64 (Q2Qc (8507374506392301 # 2251799813685248) + Z2Qc 180)%Qc
     = Q2Qc (1616528675663035 # 8796093022208).
Proof. split; apply Qc_is_canon; reflexivity. Qed.

Example round_ties_to_even :
  round_half_even (Q2Qc (5 # 2)) = 2 /\ round_half_even (Q2Qc (7 # 2)) = 4.
Proof. split; reflexivity. Qed.

Example formatting_checks :
  Str.fmt_0f (Z2Qc 300) = "300" /\ Str.fmt_signed_0f (Z2Qc 300) = "+300"
  /\ Str.fmt_1f (Q2Qc (205 # 100)) = "2.0"
  /\ Str.fmt_0f (Q2Qc (- 2 # 5)) = "-0"
  /\ Str.strip " 7700 " = "7700" /\ Str.lower "MiLiTary" = "military"
  /\ Str.contains "military" "x,military" = true /\ Str.of_Z (-15) = "-15".
Proof. repeat split; reflexivity. Qed.

Example sweep_bearings :
  mesh_heads CoarseMath.degrees CoarseMath.atan2 sweep_track
  = [90; 90; 90; 0; 90; 90; 90; 0; 90; 90; 90; 0; 90; 90; 90; 0; 90; 90; 90].
Proof. vm_compute. reflexivity. Qed.

Example delta_gs_scenario :
  let prev :=
    mkAircraft "4ca123" "" None None None (Some (Z2Qc 200)) (Some (Z2Qc 1000))
               None None None None None false in
  let ac :=
    mkAircraft "4ca123" "" None None None (Some (Z2Qc 500)) (Some (Z2Qc 1060))
               None None None None None false in
  elapsed_seconds ac (Some prev) = Some (Z2Qc 60)
  /\ detect_anomalies ac (Some prev) (elapsed_seconds ac (Some prev))
       DEF_MIN_ALT_FT DEF_MAX_ALT_FT DEF_MIN_GS_KT DEF_MAX_GS_KT
       DEF_MAX_VS_FPM DEF_MAX_DGS_KTS
     = ["ΔGS anomalo: +300 kt"].
Proof.
  split.
  - apply (bool_decide_unpack _). vm_compute. exact I.
  - vm_compute. reflexivity.
Qed.

(** * Further properties of the engine *)

(** ** Angles and bearings *)



Section BearingFacts.

Variable degrees : float -> float.
Variable atan2 : float -> float -> float.




Lemma omap_length_le {A B} (f : A -> option B) (l : list A) :
  (length (omap f l) ≤ length l)%nat.
Proof.
  induction l as [|x l IH]; csimpl; [done|].
  destruct (f x); csimpl; lia.
Qed.


End BearingFacts.

(** ** The loop detector *)

Lemma fmin_list_is_Some (l : list float) : l ≠ [] -> is_Some (fmin_list l).
Proof. destruct l; [done|]. by eexists. Qed.

Lemma fmax_list_is_Some (l : list float) : l ≠ [] -> is_Some (fmax_list l).
Proof. destruct l; [done|]. by eexists. Qed.


Section LoopFacts.

Variables sin cos sqrt radians : float -> float.
Variable atan2 : float -> float -> float.


End LoopFacts.


(** ** The scan of the mesh detector *)

Lemma consecutive_cons {A} (x y : A) (l : list A) :
  consecutive (x :: y :: l) = (x, y) :: consecutive (y :: l).
Proof. reflexivity. Qed.

Lemma consecutive_snoc {A} (l : list A) (y x : A) :
  last l = Some y -> consecutive (l ++ [x]) = consecutive l ++ [(y, x)].
Proof.
  induction l as [|z l IH]; [done|].
  destruct l as [|z' l]; [by intros [= ->]|].
  intros Hl. change (last (z :: z' :: l)) with (last (z' :: l)) in Hl.
  change ((z :: z' :: l) ++ [x]) with (z :: z' :: (l ++ [x])).
  rewrite !consecutive_cons.
  change (z' :: (l ++ [x])) with ((z' :: l) ++ [x]).
  by rewrite (IH Hl).
Qed.

Lemma run_count_snoc {A} `{EqDecision A} (l : list A) (x : A) :
  run_count (l ++ [x])
  = run_count l + (if decide (last l = Some x) then 0 else 1).
Proof.
  destruct (last l) as [y|] eqn:El.
  - assert (Hne : l ≠ []) by (by intros ->).
    unfold run_count.
    destruct l as [|z l]; [done|]. simpl app. cbv iota.
    change (z :: (l ++ [x])) with ((z :: l) ++ [x]).
    unfold alternations. rewrite (consecutive_snoc _ y x El).
    rewrite filter_app, length_app. simpl.
    destruct (decide (Some y = Some x)) as [[= ->]|Hyx].
    + rewrite filter_cons_False by (simpl; tauto). simpl. lia.
    + rewrite filter_cons_True by (simpl; congruence). simpl. lia.
  - apply last_None in El as ->. reflexivity.
Qed.

Lemma count_tag_snoc (f g : family_tag) (fams : list family_tag) :
  count_tag f (fams ++ [g])
  = count_tag f fams + (if decide (g = f) then 1 else 0).
Proof.
  unfold count_tag. rewrite filter_app, length_app.
  destruct (decide (g = f)).
  - rewrite filter_cons_True by done. simpl. lia.
  - rewrite filter_cons_False by done. simpl. lia.
Qed.

Lemma count_tag_total (fams : list family_tag) :
  count_tag FamA fams + count_tag FamB fams = Z.of_nat (length fams).
Proof.
  induction fams as [|g fams IH] using rev_ind; [done|].
  rewrite !count_tag_snoc, length_app. simpl.
  destruct g; repeat case_decide; try done; lia.
Qed.

Lemma run_count_bounds {A} `{EqDecision A} (l : list A) :
  0 <= run_count l <= Z.of_nat (length l)
  /\ (l ≠ [] -> 1 <= run_count l).
Proof.
  induction l as [|x l IH] using rev_ind; [done|].
  rewrite run_count_snoc, length_app. simpl length.
  destruct IH as [[H0 H1] H2]. split.
  - case_decide; lia.
  - intros _. case_decide as Hl; [|lia].
    assert (1 <= run_count l) by (apply H2; by intros ->). lia.
Qed.

(** The scan state after any run of bearings, read off the list of
    assigned families. *)
Lemma mesh_scan_invariant (a b : Z) (tol : float) (heads : list Z) :
  let st := foldl (mesh_step a b tol) (mkScan 0 0 0 None) heads in
  let fams := mesh_families a b tol heads in
  count_A st = count_tag FamA fams
  /\ count_B st = count_tag FamB fams
  /\ scan_crossings st = run_count fams
  /\ scan_last st = last fams.
Proof.
  induction heads as [|h heads IH] using rev_ind; [done|].
  cbv zeta in *. rewrite foldl_snoc.
  unfold mesh_families in *. rewrite omap_app.
  destruct IH as (HA & HB & HC & HL).
  set (st := foldl _ _ heads) in *.
  set (fams := omap _ heads) in *.
  unfold mesh_step. simpl omap.
  destruct (family h a b tol) as [f|]; simpl.
  - rewrite !count_tag_snoc, run_count_snoc, last_snoc, <- HL.
    destruct f; simpl;
      case_bool_decide as Hsw; repeat case_decide; simpl; try congruence;
      repeat split; try lia.
    all: congruence.
  - by rewrite app_nil_r.
Qed.

(** X6: the crossings the mesh detector compares with [min_crossings]
    are the runs of equal family along the track: one for the first
    bearing that receives a family, plus one per switch; the two
    counters add up to the number of bearings that received a family. *)
Theorem mesh_crossings_are_family_runs
    (a b : Z) (tol : float) (heads : list Z) :
  let st := foldl (mesh_step a b tol) (mkScan 0 0 0 None) heads in
  let fams := mesh_families a b tol heads in
  scan_crossings st = run_count fams
  /\ (fams ≠ [] -> scan_crossings st = 1 + alternations fams)
  /\ count_A st + count_B st = Z.of_nat (length fams)
  /\ scan_crossings st <= count_A st + count_B st
  /\ count_A st + count_B st <= Z.of_nat (length heads).
Proof.
  intros st fams.
  destruct (mesh_scan_invariant a b tol heads) as (HA & HB & HC & _).
  fold st fams in HA, HB, HC.
  pose proof (count_tag_total fams) as Htot.
  pose proof (run_count_bounds fams) as [Hrun _].
  pose proof (omap_length_le (fun h => family h a b tol) heads) as Hlen.
  fold (mesh_families a b tol heads) in Hlen. fold fams in Hlen.
  split; [done|]. split; [|lia].
  intros Hne. rewrite HC. unfold run_count. by destruct fams.
Qed.

(** X7: when every rounded bearing of a track is the same and the
    tolerance is below 90 degrees, no axis pair exists and the mesh
    detector answers [False]. *)
Theorem mesh_needs_two_axes (heads : list Z) (a : Z) (tol : float)
    (min_crossings : Z) (min_family_ratio : float) :
  (tol < Z2Qc 90)%Qc ->
  Forall (fun h => h = a) heads ->
  detect_mesh_heads heads tol min_crossings min_family_ratio = false.
Proof.
  intros Htol Hall.
  assert (Hset : sorted_set heads = [] \/ sorted_set heads = [a]).
  { induction Hall as [|h heads -> _ IH]; [by left|].
    right. simpl. destruct IH as [->| ->]; simpl; [done|].
    by rewrite Z.ltb_irrefl, Z.eqb_refl. }
  assert (Hperp : mesh_perp tol a a = false).
  { unfold mesh_perp. apply fleb_false.
    by replace (Z.abs ((a - a + 180) mod 180 - 90)) with 90
      by (Z.div_mod_to_equations; lia). }
  unfold detect_mesh_heads. destruct heads as [|h heads]; [done|].
  destruct Hset as [->| ->]; [done|].
  unfold mesh_pairs. simpl. by rewrite Hperp.
Qed.

(** X7, a run: a straight northbound track, default tolerance. *)
Lemma mesh_single_axis_run :
  detect_mesh_heads [0; 0; 0; 0; 0; 0] (Z2Qc 15) 3 (Q2Qc (1 # 4)) = false.
Proof.
  apply (mesh_needs_two_axes _ 0).
  - vm_compute. reflexivity.
  - repeat constructor.
Defined.

(** ** The anomaly classifier *)

Lemma elem_of_py_sorted (seen : gset string) (s : string) :
  s ∈ py_sorted seen <-> s ∈ seen.
Proof.
  unfold py_sorted. rewrite merge_sort_Permutation. apply elem_of_elements.
Qed.

(** X8: for an aircraft whose derived ground state is "on the ground",
    the findings never contain a low-speed or a low-altitude finding,
    whatever the thresholds and the previous state. *)
Theorem grounded_has_no_low_finding (ac : Aircraft) (prev : option Aircraft)
    (dt_sec : option float) (min_alt_ft max_alt_ft : Z)
    (min_gs_kt max_gs_kt max_vs_fpm max_dgs_kts : float) :
  derive_is_ground ac = true ->
  Forall (fun s => low_finding s = false)
    (detect_anomalies ac prev dt_sec min_alt_ft max_alt_ft
       min_gs_kt max_gs_kt max_vs_fpm max_dgs_kts).
Proof.
  intros Hg. apply Forall_forall. intros s Hs.
  apply elem_of_py_sorted in Hs. rewrite Hg in Hs. cbv zeta in Hs.
  simpl negb in Hs.
  destruct (squawk ac), (gs ac), (alt_baro ac), prev as [p|], dt_sec.
  all: rewrite ?andb_false_r in Hs; simpl andb in Hs.
  all: repeat match type of Hs with
              | context [match ?x with _ => _ end] => destruct x
              end.
  all: set_unfold; intuition subst; reflexivity.
Qed.

(** X8, a run: a parked aircraft, 20 ft and 5 kt, has no finding at
    all. *)
Lemma grounded_run :
  Forall (fun s => low_finding s = false)
    (detect_anomalies
       (mkAircraft "4ca123" "" None None (Some 20) (Some (Z2Qc 5)) None None
                   None None None None false)
       None None DEF_MIN_ALT_FT DEF_MAX_ALT_FT DEF_MIN_GS_KT DEF_MAX_GS_KT
       DEF_MAX_VS_FPM DEF_MAX_DGS_KTS).
Proof. apply grounded_has_no_low_finding. reflexivity. Defined.

Lemma detect_anomalies_no_interval (ac : Aircraft) (prev : option Aircraft)
    (dt_sec : option float) (min_alt_ft max_alt_ft : Z)
    (min_gs_kt max_gs_kt max_vs_fpm max_dgs_kts : float) :
  prev = None \/ dt_sec = None
  \/ (exists d, dt_sec = Some d /\ (d ≤ Z2Qc 0)%Qc) ->
  detect_anomalies ac prev dt_sec min_alt_ft max_alt_ft
    min_gs_kt max_gs_kt max_vs_fpm max_dgs_kts
  = detect_anomalies ac None None min_alt_ft max_alt_ft
      min_gs_kt max_gs_kt max_vs_fpm max_dgs_kts.
Proof.
  intros Hno. unfold detect_anomalies.
  destruct prev as [p|]; [|done]. destruct dt_sec as [d|]; [|done].
  destruct Hno as [?|[?|(d' & [= <-] & Hd)]]; try done.
  by rewrite (proj2 (fltb_false _ _) Hd), andb_false_r.
Qed.

(** X9: when the timestamp of the current state is not later than that
    of the previous state, the interval the main loop computes is
    clamped to zero and the findings are those of an aircraft seen for
    the first time: no vertical-speed and no speed-change finding. *)
Theorem stale_timestamp_gives_no_delta (ac p : Aircraft)
    (min_alt_ft max_alt_ft : Z)
    (min_gs_kt max_gs_kt max_vs_fpm max_dgs_kts : float) (t pt : float) :
  ts ac = Some t -> ts p = Some pt -> (t ≤ pt)%Qc ->
  detect_anomalies ac (Some p) (elapsed_seconds ac (Some p))
    min_alt_ft max_alt_ft min_gs_kt max_gs_kt max_vs_fpm max_dgs_kts
  = detect_anomalies ac None None min_alt_ft max_alt_ft
      min_gs_kt max_gs_kt max_vs_fpm max_dgs_kts.
Proof.
  intros Et Ept Hle. apply detect_anomalies_no_interval.
  right. unfold elapsed_seconds. rewrite Et, Ept.
  destruct (_ && _); [|by left]. right. eexists. split; [done|].
  unfold fmax2. destruct (fltb _ _) eqn:E; [|apply Qcle_refl].
  apply fltb_true in E. exfalso. revert E Hle. clear. intros. qc_lra.
Qed.

(** X9, a run: a 300 kt jump and 8000 ft of climb against a previous
    state stamped 60 s later give no finding. *)
Lemma stale_timestamp_run :
  detect_anomalies stale_state (Some fresher_prev_state)
    (elapsed_seconds stale_state (Some fresher_prev_state))
    DEF_MIN_ALT_FT DEF_MAX_ALT_FT DEF_MIN_GS_KT DEF_MAX_GS_KT
    DEF_MAX_VS_FPM DEF_MAX_DGS_KTS
  = [].
Proof.
  rewrite (stale_timestamp_gives_no_delta stale_state fresher_prev_state
             _ _ _ _ _ _ (Z2Qc 1000) (Z2Qc 1060)).
  - vm_compute. reflexivity.
  - reflexivity.
  - reflexivity.
  - vm_compute. discriminate.
Defined.

(** ** Independence of the cooldown keys *)

Section LedgerKeys.

Context {K : Type} `{Countable K}.

Lemma check_and_mark_other (last : gmap K float) (k k' : K) t w :
  k ≠ k' -> (check_and_mark last k t w).2 !! k' = last !! k'.
Proof.
  intros Hne. unfold check_and_mark.
  destruct (fleb _ _); simpl; [by rewrite lookup_insert_ne|done].
Qed.

Lemma check_and_mark_answer (last last' : gmap K float) (k : K) t w :
  last !! k = last' !! k ->
  (check_and_mark last k t w).1 = (check_and_mark last' k t w).1.
Proof. intros E. unfold check_and_mark. rewrite E. by destruct (fleb _ _). Qed.

(** X10: a check on one key never changes the answer for another key,
    and checks on two different keys give the same ledger in either
    order. *)
Theorem cooldown_keys_independent (last : gmap K float) (k k' : K)
    (t t' : float) (w w' : Z) :
  k ≠ k' ->
  (check_and_mark (check_and_mark last k t w).2 k' t' w').1
    = (check_and_mark last k' t' w').1
  /\ (check_and_mark (check_and_mark last k t w).2 k' t' w').2
     = (check_and_mark (check_and_mark last k' t' w').2 k t w).2.
Proof.
  intros Hne.
  assert (H1 : (check_and_mark (check_and_mark last k t w).2 k' t' w').1
               = (check_and_mark last k' t' w').1).
  { apply check_and_mark_answer. by apply check_and_mark_other. }
  assert (H2 : (check_and_mark (check_and_mark last k' t' w').2 k t w).1
               = (check_and_mark last k t w).1).
  { apply check_and_mark_answer. by apply check_and_mark_other. }
  split; [exact H1|].
  rewrite (check_and_mark_ledger (check_and_mark last k t w).2 k' t' w'), H1.
  rewrite (check_and_mark_ledger (check_and_mark last k' t' w').2 k t w), H2.
  rewrite (check_and_mark_ledger last k t w),
    (check_and_mark_ledger last k' t' w').
  destruct (check_and_mark last k t w).1, (check_and_mark last k' t' w').1;
    try done.
  by apply insert_insert_ne.
Qed.

End LedgerKeys.

(** X10, a run: a LOOP alert for an aircraft does not delay a MESH
    alert for the same aircraft. *)
Lemma pattern_names_run :
  let ac := lead_aircraft in
  let r1 := pattern_alert ∅ ac "LOOP/CERCHIO" (Z2Qc 1000) 900 in
  (pattern_alert r1.2 ac "MESH/RETICOLATO" (Z2Qc 1010) 900).1 = true.
Proof.
  cbv zeta. unfold pattern_alert.
  destruct (cooldown_keys_independent
              (∅ : gmap (string * string) float)
              (hex lead_aircraft, "LOOP/CERCHIO")
              (hex lead_aircraft, "MESH/RETICOLATO")
              (Z2Qc 1000) (Z2Qc 1010) 900 900) as [-> _]; [done|].
  vm_compute. reflexivity.
Defined.

(** ** The proximity classifier *)

(** X11: the cooldown key of a pair does not depend on the order in
    which the two aircraft are met. *)
Theorem prox_key_unordered (hex1 hex2 label : string) :
  prox_key hex1 hex2 label = prox_key hex2 hex1 label.
Proof.
  unfold prox_key, str_le.
  repeat case_bool_decide; try done.
  - by rewrite (String.leb_antisym hex1 hex2).
  - by destruct (String.leb_total hex1 hex2).
Qed.

Section ProximitySoundness.

Variables sin cos sqrt radians degrees : float -> float.
Variable atan2 : float -> float -> float.

Local Abbreviation prox_pair' := (prox_pair sin cos sqrt radians degrees atan2).
Local Abbreviation approx_following' := (approx_following degrees atan2).
Local Abbreviation cur_heading' := (cur_heading degrees atan2).

Lemma heading_same_point (p : point) : heading degrees atan2 p p = None.
Proof.
  unfold heading.
  by rewrite !(proj2 (feqb_iff _ _) (proj2 (Qc_sub_zero _ _) eq_refl)).
Qed.



(** X13: "approximate following" implies alignment of the two headings
    within the same tolerance, and is never found between two aircraft
    at the same position. *)
Theorem approx_following_is_aligned (p_lead : point) (h_lead : option float)
    (p_trail : point) (h_trail : option float) (tol_deg : float) :
  approx_following' p_lead h_lead p_trail h_trail tol_deg = true ->
  same_direction h_lead h_trail tol_deg = true /\ p_lead ≠ p_trail.
Proof.
  unfold approx_following, same_direction.
  destruct h_lead as [hl|], h_trail as [ht|]; try done.
  destruct (fltb tol_deg _) eqn:E; [done|]. apply fltb_false in E.
  destruct (heading degrees atan2 p_lead p_trail) as [bt|] eqn:Eh; [|done].
  intros _. split; [by apply fleb_true|].
  intros ->. by rewrite heading_same_point in Eh.
Qed.

End ProximitySoundness.


(** X13, a run: the trailing sample aircraft follows the leader. *)
Lemma approx_following_run :
  same_direction (Some (dec 90 1)) (Some (dec 90 1)) (dec 20 1) = true
  /\ position lead_aircraft ≠ position trail_aircraft.
Proof.
  apply (approx_following_is_aligned CoarseMath.degrees CoarseMath.atan2).
  vm_compute. reflexivity.
Defined.

(** ** Current heading and pattern priority *)

Section CycleFacts.

Variables sin cos sqrt radians degrees : float -> float.
Variable atan2 : float -> float -> float.


Lemma loop_shape_cases (track : list point)
    (close : float) (min_points : Z) (span : float) (laps : Z)
    (shape : string) :
  detect_loop_or_racetrack sin cos sqrt radians atan2 track
    close min_points span laps = Ok (Some shape) ->
  shape = "LOOP/CERCHIO" \/ shape = "RACETRACK".
Proof.
  unfold detect_loop_or_racetrack.
  destruct (_ <? _)%Z; [done|].
  destruct (head track); [|by destruct (last track)].
  destruct (last track); [|done].
  destruct (fltb close _); [done|].
  destruct (fmin_list track.*1), (fmax_list track.*1),
    (fmin_list track.*2), (fmax_list track.*2); try done.
  destruct (_ || _); [done|].
  destruct (_ <? _)%Z; [done|].
  intros [= <-].
  match goal with
  | |- context [if ?c then _ else _] => destruct c
  end; [by left|by right].
Qed.

(** X15: the pattern of a track is decided in the order loop,
    lawnmower, mesh.  A shape of the loop detector is the pattern,
    whatever the other two detectors would say; TAGLIAERBA is reported
    only when the loop detector found nothing and the lawnmower detector
    answered [True], so only on a track with at least
    [lawn_required_passes] bearings whose sum with 180 is rounded;
    MESH/RETICOLATO only when both other detectors found nothing. *)
Theorem pattern_priority (args : pattern_args) (track : list point) :
  let loop :=
    detect_loop_or_racetrack sin cos sqrt radians atan2 track
      (loop_close_km args) (loop_min_points args)
      (loop_min_span_km args) (loop_min_laps args) in
  let lawn :=
    detect_lawnmower sin cos sqrt radians degrees atan2 track
      (lawn_min_points args) (lawn_heading_tol args)
      (lawn_required_passes args) (lawn_min_span_km args) in
  let pattern := classify_pattern sin cos sqrt radians degrees atan2 args track in
  (forall shape, loop = Ok (Some shape) -> pattern = Ok (Some shape))
  /\ (pattern = Ok (Some "TAGLIAERBA") ->
      loop = Ok None /\ lawn = Ok true
      /\ lawn_required_passes args
         <= Z.of_nat (length (rounded_bearings
                                (lawn_heads degrees atan2 track))))
  /\ (pattern = Ok (Some "MESH/RETICOLATO") ->
      loop = Ok None /\ lawn = Ok false).
Proof.
  intros loop lawn pattern. unfold pattern, classify_pattern. fold loop lawn.
  pose proof (loop_shape_cases track (loop_close_km args)
                (loop_min_points args) (loop_min_span_km args)
                (loop_min_laps args)) as Hshape. fold loop in Hshape.
  pose proof (lawnmower_true_needs_B sin cos sqrt radians degrees atan2
                track (lawn_min_points args) (lawn_heading_tol args)
                (lawn_required_passes args) (lawn_min_span_km args))
    as Hlawn. fold lawn in Hlawn.
  destruct loop as [[shape|]|e]; cbn [mbind result_bind].
  - split; [by intros ? [= <-]|].
    destruct (Hshape shape eq_refl) as [-> | ->]; by split.
  - split; [done|].
    destruct lawn as [[]|e]; cbn [mbind result_bind].
    + split; [|done]. intros _. split; [done|]. split; [done|].
      by apply Hlawn.
    + split; [by destruct (detect_mesh _ _ _ _ _ _ _)|].
      by destruct (detect_mesh _ _ _ _ _ _ _).
    + by split.
  - by repeat split.
Qed.

End CycleFacts.


(** X15, a run: with the default parameters the survey is reported as
    TAGLIAERBA; it has four bearings with a rounded sum. *)
Lemma pattern_survey_run :
  classify_pattern CoarseMath.sin CoarseMath.cos CoarseMath.sqrt
    CoarseMath.radians SurveyMath.degrees SurveyMath.atan2
    default_pattern_args survey_track = Ok (Some "TAGLIAERBA")
  /\ 4 <= Z.of_nat (length (rounded_bearings
                              (lawn_heads SurveyMath.degrees SurveyMath.atan2
                                 survey_track))).
Proof.
  assert (Hrun : classify_pattern CoarseMath.sin CoarseMath.cos
                   CoarseMath.sqrt CoarseMath.radians SurveyMath.degrees
                   SurveyMath.atan2 default_pattern_args survey_track
                 = Ok (Some "TAGLIAERBA")) by (vm_compute; reflexivity).
  split; [exact Hrun|].
  destruct (pattern_priority CoarseMath.sin CoarseMath.cos CoarseMath.sqrt
              CoarseMath.radians SurveyMath.degrees SurveyMath.atan2
              default_pattern_args survey_track) as (_ & Hlawn & _).
  destruct (Hlawn Hrun) as (_ & _ & Hcount). exact Hcount.
Defined.

(** ** Geofence *)

Lemma rotate_1_cons {A} (p : A) (l : list A) : rotate 1 (p :: l) = l ++ [p].
Proof.
  unfold rotate. destruct l as [|q l]; [done|].
  change (length (p :: q :: l)) with (S (S (length l))).
  rewrite Nat.mod_small by lia. reflexivity.
Qed.

Lemma ring_edges_elem (ring : list point) (e : point * point) :
  e ∈ ring_edges ring -> e.1 ∈ ring /\ e.2 ∈ ring.
Proof.
  destruct e as [a b]. unfold ring_edges. intros He. split.
  - by apply elem_of_zip_l in He.
  - apply elem_of_zip_r in He. by apply elem_of_rotate in He.
Qed.

Lemma edge_toggles_off_band (x y : float) (ring : list point)
    (e : point * point) :
  off_band y ring -> e ∈ ring_edges ring -> edge_toggles x y e = Some false.
Proof.
  intros Hband He. apply ring_edges_elem in He as [H1 H2].
  unfold edge_toggles.
  destruct Hband as [Hs|Hn]; rewrite Forall_forall in *.
  - apply Hs, fltb_false in H1. apply Hs, fltb_false in H2.
    by rewrite H1, H2.
  - apply Hn, fltb_true in H1. apply Hn, fltb_true in H2.
    by rewrite H1, H2.
Qed.

Lemma point_in_ring_off_band (x y : float) (ring : list point) :
  off_band y ring -> point_in_ring (y, x) ring = Some false.
Proof.
  intros Hband. unfold point_in_ring. cbn [fst snd].
  assert (Hall : forall e, e ∈ ring_edges ring ->
                           edge_toggles x y e = Some false)
    by (intros e; by apply edge_toggles_off_band).
  induction (ring_edges ring) as [|e l IH] using rev_ind; [done|].
  rewrite foldl_snoc, IH by (intros e' He'; apply Hall; set_solver).
  cbn. rewrite Hall by set_solver. done.
Qed.

(** X16: a point whose latitude is at or above every vertex of the outer
    ring of each polygon of the geofence, or below every vertex, is
    outside the geofence, whatever the holes, and testing it never
    divides. *)
Theorem geofence_off_band_is_outside (x y : float)
    (polygons : list (list (list point))) :
  Forall (fun polygon => off_band y (outer_ring polygon)) polygons ->
  in_any_polygon (Some y) (Some x) polygons = Some false.
Proof.
  intros Hall. unfold in_any_polygon.
  induction Hall as [|polygon rest Hband _ IH]; [done|].
  cbn [any_polygon]. destruct polygon as [|outer holes].
  - cbn. exact IH.
  - cbn [point_in_polygon]. unfold outer_ring in Hband. cbn in Hband.
    rewrite (point_in_ring_off_band x y outer Hband). cbn. exact IH.
Qed.

Lemma this_ring_eps : this ring_eps == 1 # 1000000000000.
Proof. unfold ring_eps. cbn [this Q2Qc]. apply Qred_correct. Qed.

(** X17: the ring of an axis-aligned rectangle holds exactly the
    half-open box: its south and west sides belong to it, its north and
    east sides do not.  A rectangle exactly [1e-12] degrees high is the
    exception: between its sides the test divides by zero. *)
Theorem rectangle_is_half_open_box (y0 y1 x0 x1 y x : float) :
  (y0 < y1)%Qc -> (x0 < x1)%Qc ->
  point_in_ring (y, x) (box y0 y1 x0 x1)
  = if feqb (y1 - y0)%Qc ring_eps && fleb y0 y && fltb y y1 then None
    else Some (fleb y0 y && fltb y y1 && fleb x0 x && fltb x x1).
Proof.
  intros Hy Hx.
  assert (E1 : forall a d : float, ((x1 - x1) * a / d + x1)%Qc = x1).
  { intros a d. unfold Qcdiv. ring. }
  assert (E0 : forall a d : float, ((x0 - x0) * a / d + x0)%Qc = x0).
  { intros a d. unfold Qcdiv. ring. }
  assert (Hpos : feqb (y1 - y0 + ring_eps)%Qc (Z2Qc 0) = false).
  { apply bool_decide_eq_false. intros E.
    assert (Hc : (y1 - y0 + ring_eps <= Z2Qc 0)%Qc) by (rewrite E; apply Qcle_refl).
    pose proof this_ring_eps as Heps. unfold ring_eps in *. qc_lra. }
  assert (Hden : feqb (y0 - y1 + ring_eps)%Qc (Z2Qc 0)
                 = feqb (y1 - y0)%Qc ring_eps).
  { unfold feqb. apply bool_decide_ext. split.
    - intros E. replace (y1 - y0)%Qc
        with (ring_eps - (y0 - y1 + ring_eps))%Qc by ring.
      rewrite E. change (Z2Qc 0) with (Q2Qc 0). ring.
    - intros E. replace (y0 - y1 + ring_eps)%Qc
        with (ring_eps - (y1 - y0))%Qc by ring.
      rewrite E. change (Z2Qc 0) with (Q2Qc 0). ring. }
  unfold point_in_ring, box, ring_edges. rewrite rotate_1_cons.
  cbn [fst snd app zip zip_with foldl].
  unfold edge_toggles. cbn [fst snd]. fold ring_eps.
  rewrite !E1, !E0, Hpos, Hden.
  rewrite !fleb_negb_fltb.
  destruct (fltb y y0) eqn:A, (fltb y y1) eqn:B, (fltb x x0) eqn:C,
    (fltb x x1) eqn:D, (feqb (y1 - y0)%Qc ring_eps); cbn; try reflexivity.
  all: repeat match goal with
       | H : fltb _ _ = true |- _ => apply fltb_true in H
       | H : fltb _ _ = false |- _ => apply fltb_false in H
       end; exfalso; qc_lra.
Qed.

(** X16, a run: latitude 47 is north of the whole unit fence. *)
Lemma geofence_north_run :
  in_any_polygon (Some (Z2Qc 47)) (Some (dec 95 10)) unit_fence = Some false.
Proof.
  apply geofence_off_band_is_outside.
  constructor; [|constructor].
  left. repeat constructor; vm_compute; discriminate.
Defined.

(** X17, a run: the south-west corner of the unit fence is inside, its
    north-east corner is not. *)
Lemma rectangle_corners_run :
  point_in_ring (Z2Qc 45, Z2Qc 9) (box (Z2Qc 45) (Z2Qc 46) (Z2Qc 9) (Z2Qc 10))
    = Some true
  /\ point_in_ring (Z2Qc 46, Z2Qc 10)
       (box (Z2Qc 45) (Z2Qc 46) (Z2Qc 9) (Z2Qc 10)) = Some false.
Proof.
  split.
  - etrans; [apply rectangle_is_half_open_box; vm_compute; reflexivity|].
    vm_compute. reflexivity.
  - etrans; [apply rectangle_is_half_open_box; vm_compute; reflexivity|].
    vm_compute. reflexivity.
Defined.

Lemma point_in_ring_fold (pt : point) (ring : list point) :
  point_in_ring pt ring
  = foldl (ring_turn pt.2 pt.1) (Some false) (ring_edges ring).
Proof. reflexivity. Qed.

Lemma ring_turn_comm (x y : float) (acc : option bool) (e1 e2 : point * point) :
  ring_turn x y (ring_turn x y acc e1) e2
  = ring_turn x y (ring_turn x y acc e2) e1.
Proof.
  unfold ring_turn.
  destruct acc as [b|], (edge_toggles x y e1) as [t1|],
    (edge_toggles x y e2) as [t2|]; cbn; try reflexivity.
  by destruct b, t1, t2.
Qed.

Lemma ring_turn_head_last (x y : float) (acc : option bool)
    (e : point * point) (l : list (point * point)) :
  foldl (ring_turn x y) acc (e :: l) = foldl (ring_turn x y) acc (l ++ [e]).
Proof.
  rewrite foldl_snoc. cbn [foldl]. revert acc.
  induction l as [|e' l IH]; intros acc; [done|].
  cbn [foldl]. rewrite <- IH. by rewrite ring_turn_comm.
Qed.

Lemma ring_edges_cons (p : point) (l : list point) :
  ring_edges (p :: l) = zip (p :: l) (l ++ [p]).
Proof. unfold ring_edges. by rewrite rotate_1_cons. Qed.

Lemma point_in_ring_shift (pt p : point) (l : list point) :
  point_in_ring pt (l ++ [p]) = point_in_ring pt (p :: l).
Proof.
  destruct l as [|q l]; [done|].
  rewrite !point_in_ring_fold.
  rewrite (ring_edges_cons p (q :: l)).
  etrans; [|symmetry;
            apply (ring_turn_head_last _ _ _ (p, q)
                     (zip (q :: l) (l ++ [p])))].
  f_equal. rewrite <- app_comm_cons, ring_edges_cons.
  rewrite (app_comm_cons l [p] q).
  rewrite zip_with_app by (rewrite length_app; simpl; lia).
  reflexivity.
Qed.

(** X18: the answer of [point_in_ring] does not depend on the vertex the
    ring is listed from: listing it from another vertex gives the same
    answer, the division error included. *)
Theorem ring_start_is_irrelevant (pt : point) (l1 l2 : list point) :
  point_in_ring pt (l2 ++ l1) = point_in_ring pt (l1 ++ l2).
Proof.
  revert l2. induction l1 as [|p l1 IH]; intros l2.
  - by rewrite app_nil_r.
  - change ((p :: l1) ++ l2) with (p :: (l1 ++ l2)).
    rewrite <- point_in_ring_shift, <- app_assoc, <- IH.
    by rewrite <- app_assoc.
Qed.

(** X19: a ring that repeats its first vertex at its end, as GeoJSON
    rings do, is tested like the ring without the repetition. *)
Theorem closed_ring_is_same_ring (pt p : point) (l : list point) :
  point_in_ring pt ((p :: l) ++ [p]) = point_in_ring pt (p :: l).
Proof.
  rewrite !point_in_ring_fold.
  change ((p :: l) ++ [p]) with (p :: (l ++ [p])).
  rewrite (ring_edges_cons p (l ++ [p])), (ring_edges_cons p l).
  change (p :: (l ++ [p])) with ((p :: l) ++ [p]).
  rewrite zip_with_app by (rewrite length_app; simpl; lia).
  rewrite foldl_app.
  generalize (foldl (ring_turn pt.2 pt.1) (Some false)
                (zip_with pair (p :: l) (l ++ [p]))).
  intros acc. cbn [zip_with foldl].
  unfold ring_turn, edge_toggles. cbn [fst snd].
  rewrite xorb_nilpotent. destruct acc as [[]|]; reflexivity.
Qed.








(** ** The ANOMALY and MIL phases *)

Section PhaseFacts.

Variable clock : nat -> float.

Lemma anomaly_step_prev_state (args : anomaly_args) (st : anomaly_state)
    (ac : Aircraft) :
  prev_state (anomaly_step clock args st ac) = <[hex ac := ac]> (prev_state st).
Proof.
  unfold anomaly_step. cbn [prev_state].
  by destruct (detect_anomalies _ _ _ _ _ _ _ _ _).
Qed.

(** X21: after the ANOMALY phase the reference state of a hex is the
    last state of the cycle with that hex, whether or not it had a
    finding or was in cooldown, and the reference of the cycle before
    for a hex the cycle did not report.  So the second of two states of
    one hex in a cycle is compared with the first. *)
Theorem anomaly_phase_keeps_last_state (args : anomaly_args)
    (aircraft : list Aircraft) (st : anomaly_state) (h : string) :
  prev_state (anomaly_phase clock args aircraft st) !! h
  = match last_state_of h aircraft with
    | Some ac => Some ac
    | None => prev_state st !! h
    end.
Proof.
  unfold anomaly_phase, last_state_of.
  induction aircraft as [|ac l IH] using rev_ind; [done|].
  rewrite foldl_snoc, anomaly_step_prev_state, filter_app.
  destruct (decide (hex ac = h)) as [E|E].
  - rewrite filter_cons_True, filter_nil by done.
    rewrite last_snoc. subst h. apply lookup_insert_eq.
  - rewrite filter_cons_False, filter_nil, app_nil_r by done.
    by rewrite lookup_insert_ne.
Qed.

Lemma marked_rows_start (etype : string) (rows : list event_row)
    (ledger : gmap string float) :
  marked_rows clock etype [] rows rows ledger.
Proof.
  exists []. rewrite app_nil_r. split; [done|]. split; [constructor|].
  split; [constructor|]. intros h Hh. by apply elem_of_nil in Hh.
Qed.

Lemma marked_rows_skip (etype : string) (l : list Aircraft) (ac : Aircraft)
    (old new : list event_row) (ledger : gmap string float) :
  marked_rows clock etype l old new ledger ->
  marked_rows clock etype (l ++ [ac]) old new ledger.
Proof.
  intros (added & E & Hnd & Hall & Hled). exists added.
  split; [done|]. split; [done|]. split; [|done].
  eapply Forall_impl; [exact Hall|]. intros r [? ?]. split; [done|].
  apply elem_of_app. by left.
Qed.

Lemma marked_rows_mark (etype note : string) (l : list Aircraft)
    (ac : Aircraft) (old new : list event_row) (ledger : gmap string float)
    (cooldown : Z) (n : nat) :
  short_cycle clock cooldown ->
  (Z2Qc cooldown ≤ clock n - default (Z2Qc 0) (ledger !! hex ac))%Qc ->
  marked_rows clock etype l old new ledger ->
  marked_rows clock etype (l ++ [ac]) old (new ++ [mkRow ac etype note])
              (<[hex ac := clock n]> ledger).
Proof.
  intros Hshort Hdue (added & E & Hnd & Hall & Hled).
  exists (added ++ [mkRow ac etype note]).
  split; [by rewrite E, app_assoc|].
  assert (Hfresh : hex ac ∉ row_hexes added).
  { intros Hin. destruct (Hled _ Hin) as [i Hi].
    rewrite Hi in Hdue. cbn in Hdue.
    exact (Qclt_not_le _ _ (Hshort i n) Hdue). }
  split; [|split].
  - unfold row_hexes. rewrite map_app. apply NoDup_app.
    split; [exact Hnd|]. split; [|apply NoDup_singleton].
    cbn. intros h Hh ->%list_elem_of_singleton. by apply Hfresh.
  - apply Forall_app. split.
    + eapply Forall_impl; [exact Hall|]. intros r [? ?]. split; [done|].
      apply elem_of_app. by left.
    + apply Forall_singleton. split; [done|].
      apply elem_of_app. right. by apply list_elem_of_singleton.
  - intros h Hh. destruct (decide (h = hex ac)) as [->|Hne].
    + exists n. apply lookup_insert_eq.
    + rewrite lookup_insert_ne by done. apply Hled.
      unfold row_hexes in Hh. rewrite map_app in Hh.
      apply elem_of_app in Hh as [Hh|Hh]; [done|].
      cbn in Hh. by apply list_elem_of_singleton in Hh.
Qed.

Lemma anomaly_phase_marked (args : anomaly_args) (aircraft : list Aircraft)
    (st : anomaly_state) :
  short_cycle clock (anomaly_cooldown args) ->
  marked_rows clock "ANOMALY" aircraft (anomaly_rows st)
    (anomaly_rows (anomaly_phase clock args aircraft st))
    (last_anom_alert (anomaly_phase clock args aircraft st)).
Proof.
  intros Hshort. unfold anomaly_phase.
  induction aircraft as [|ac l IH] using rev_ind;
    [apply marked_rows_start|].
  rewrite foldl_snoc. set (s := foldl (anomaly_step clock args) st l) in *.
  unfold anomaly_step.
  destruct (detect_anomalies _ _ _ _ _ _ _ _ _) as [|a findings];
    cbn [anomaly_rows last_anom_alert]; [by apply marked_rows_skip|].
  destruct (check_and_mark (last_anom_alert s) (hex ac)
              (clock (anomaly_ticks s)) (anomaly_cooldown args)).1 eqn:Hdue.
  - rewrite check_and_mark_ledger, Hdue.
    apply check_and_mark_true in Hdue.
    by eapply marked_rows_mark.
  - rewrite check_and_mark_ledger, Hdue. by apply marked_rows_skip.
Qed.

(** X22: in a cycle whose clock readings are all closer to each other
    than the anomaly cooldown, the ANOMALY phase appends at most one row
    for each hex, however often the merged feed repeats the aircraft;
    the rows it appends are ANOMALY rows of states of the cycle, and the
    rows it was given are kept. *)
Theorem anomaly_once_per_hex_and_cycle (args : anomaly_args)
    (aircraft : list Aircraft) (st : anomaly_state) :
  short_cycle clock (anomaly_cooldown args) ->
  one_row_per_hex "ANOMALY" aircraft (anomaly_rows st)
    (anomaly_rows (anomaly_phase clock args aircraft st)).
Proof.
  intros Hshort.
  destruct (anomaly_phase_marked args aircraft st Hshort)
    as (added & E & Hnd & Hall & _).
  by exists added.
Qed.

Lemma mil_phase_marked (mil_cooldown : Z) (aircraft : list Aircraft)
    (st : mil_state) :
  short_cycle clock mil_cooldown ->
  marked_rows clock "MIL" aircraft (mil_rows st)
    (mil_rows (mil_phase clock mil_cooldown aircraft st))
    (last_mil_alert (mil_phase clock mil_cooldown aircraft st))
  /\ Forall (fun r => is_mil (row_ac r) = true)
       (drop (length (mil_rows st))
             (mil_rows (mil_phase clock mil_cooldown aircraft st)))
  /\ (length (mil_rows st)
      <= length (mil_rows (mil_phase clock mil_cooldown aircraft st)))%nat.
Proof.
  intros Hshort. unfold mil_phase.
  induction aircraft as [|ac l IH] using rev_ind.
  - split; [apply marked_rows_start|]. cbn [foldl].
    rewrite drop_all. split; [constructor|done].
  - rewrite foldl_snoc. set (s := foldl (mil_step clock mil_cooldown) st l) in *.
    destruct IH as (Hmarked & Hmil & Hlen).
    unfold mil_step. destruct (is_mil ac) eqn:Hflag; cbn [negb].
    + destruct (fltb _ _) eqn:Hdue; cbn [mil_rows last_mil_alert].
      * split; [by apply marked_rows_skip|done].
      * apply fltb_false in Hdue. split; [by eapply marked_rows_mark|].
        rewrite length_app, drop_app_le by done. split; [|lia].
        apply Forall_app. split; [done|]. by apply Forall_singleton.
    + split; [by apply marked_rows_skip|done].
Qed.

(** X23: in a cycle whose clock readings are all closer to each other
    than the MIL cooldown, the MIL phase appends at most one row for
    each hex, and only for states that carry the military flag; the
    rows it was given are kept. *)
Theorem mil_once_per_hex_and_cycle (mil_cooldown : Z)
    (aircraft : list Aircraft) (st : mil_state) :
  short_cycle clock mil_cooldown ->
  one_row_per_hex "MIL" aircraft (mil_rows st)
    (mil_rows (mil_phase clock mil_cooldown aircraft st))
  /\ Forall (fun r => is_mil (row_ac r) = true)
       (drop (length (mil_rows st))
             (mil_rows (mil_phase clock mil_cooldown aircraft st))).
Proof.
  intros Hshort.
  destruct (mil_phase_marked mil_cooldown aircraft st Hshort)
    as ((added & E & Hnd & Hall & _) & Hmil & _).
  split; [by exists added|exact Hmil].
Qed.

End PhaseFacts.

Lemma frozen_clock_short (cooldown : Z) :
  0 < cooldown -> short_cycle frozen_clock cooldown.
Proof.
  intros Hpos i j. unfold frozen_clock.
  replace (Z2Qc 1700000000 - Z2Qc 1700000000)%Qc with (Z2Qc 0)
    by (change (Z2Qc 0) with (Q2Qc 0); ring).
  assert (H1 : (Z2Qc 0 <= Z2Qc (cooldown - 1))%Qc) by (apply Z2Qc_le; lia).
  assert (H2 : (Z2Qc (cooldown - 1) < Z2Qc cooldown)%Qc).
  { unfold Qclt. rewrite !this_Z2Qc. unfold Qlt. cbn. lia. }
  eapply Qcle_lt_trans; eassumption.
Qed.

(** X22, a run: the aircraft the tiles and the military endpoint both
    report gets one ANOMALY row. *)
Lemma anomaly_merged_feed_run :
  one_row_per_hex "ANOMALY" merged_feed []
    (anomaly_rows (anomaly_phase frozen_clock default_anomaly_args merged_feed
                     (mkAnomalyState ∅ ∅ [] 0)))
  /\ length (anomaly_rows (anomaly_phase frozen_clock default_anomaly_args
                             merged_feed (mkAnomalyState ∅ ∅ [] 0))) = 1%nat.
Proof.
  split.
  - apply (anomaly_once_per_hex_and_cycle frozen_clock default_anomaly_args
             merged_feed (mkAnomalyState ∅ ∅ [] 0)).
    apply frozen_clock_short. reflexivity.
  - vm_compute. reflexivity.
Defined.

(** X23, a run: of the two reports only the military one gets a MIL
    row. *)
Lemma mil_merged_feed_run :
  one_row_per_hex "MIL" (merged_feed ++ merged_feed) []
    (mil_rows (mil_phase frozen_clock 1800 (merged_feed ++ merged_feed)
                 (mkMilState ∅ [] 0)))
  /\ mil_rows (mil_phase frozen_clock 1800 (merged_feed ++ merged_feed)
                 (mkMilState ∅ [] 0))
     = [mkRow (mayday_state true) "MIL" "MIL"].
Proof.
  split.
  - apply (mil_once_per_hex_and_cycle frozen_clock 1800
             (merged_feed ++ merged_feed) (mkMilState ∅ [] 0)).
    apply frozen_clock_short. reflexivity.
  - vm_compute. reflexivity.
Defined.

(** ** The military flag *)

Lemma uint_not_military (u : Decimal.uint) :
  Str.contains "military" (Str.lower (NilEmpty.string_of_uint u)) = false.
Proof. induction u; cbn; done. Qed.

Lemma of_Z_not_military (z : Z) :
  Str.contains "military" (Str.lower (Str.of_Z z)) = false.
Proof.
  unfold Str.of_Z, NilZero.string_of_int.
  destruct (Z.to_int z) as [u|u].
  - unfold NilZero.string_of_uint.
    destruct u; try apply uint_not_military; reflexivity.
  - unfold NilZero.string_of_uint.
    destruct u; try (cbn; apply uint_not_military); reflexivity.
Qed.

Section NormalizerFacts.

Variable str_to_float : string -> option float.
Variable str_to_int : string -> option Z.
Variable float_repr : float -> string.
Variable nonfinite_float : nonfinite -> float.

(** X24: the text test on [dbFlags] never fires for the bit field of the
    feed: with [dbFlags] absent, a boolean or an integer, a record is
    flagged military only by one of the keys [force_mil], [military],
    [isMil] and [mil]. *)
Theorem numeric_dbflags_never_military (r : gmap string pyval)
    (ac : Aircraft) :
  numeric_flags (dict_get r "dbFlags") = true ->
  build_aircraft str_to_float str_to_int float_repr nonfinite_float r
    = Ok ac ->
  is_mil ac = truthy (dict_get r "force_mil") || truthy (dict_get r "military")
              || truthy (dict_get r "isMil") || truthy (dict_get r "mil").
Proof.
  intros Hflags. unfold build_aircraft.
  destruct (as_str (py_or (dict_get r "hex") (PStr ""))); [|done].
  destruct (as_str (py_or (dict_get r "flight") (PStr ""))); [|done].
  cbn [fmap result_fmap mbind result_bind].
  destruct (safe_float _ _ (dict_get r "lat")); [|done].
  destruct (safe_float _ _ (dict_get r "lon")); [|done].
  cbn [fmap result_fmap mbind result_bind].
  destruct (safe_int _ (dict_get r "alt_baro")); [|done].
  destruct (safe_float _ _ (dict_get r "gs")); [|done].
  cbn [fmap result_fmap mbind result_bind].
  destruct (safe_float _ _ (py_or _ _)); [|done].
  destruct (as_str (py_or (py_or _ _) _)); [|done].
  cbn [fmap result_fmap mbind result_bind].
  intros [= <-]. cbn [is_mil].
  assert (Hno : Str.contains "military"
                  (Str.lower (py_str float_repr
                     (py_or (dict_get r "dbFlags") (PStr "")))) = false).
  { destruct (dict_get r "dbFlags") as [|[]|z| | | |]; try done.
    unfold py_or. destruct (truthy (PInt z)); [|done].
    apply of_Z_not_military. }
  rewrite Hno. by rewrite orb_false_r.
Qed.

End NormalizerFacts.

(** X24, a run: a record with the military bit of [dbFlags] set is not
    flagged. *)
Lemma flagged_record_run :
  exists ac,
    build_aircraft (fun _ => None) (fun _ => None) (fun _ => "")
      (fun _ => Z2Qc 0) flagged_record
      = Ok ac
    /\ hex ac = "4ca123" /\ is_mil ac = false.
Proof.
  destruct (build_aircraft (fun _ => None) (fun _ => None) (fun _ => "")
              (fun _ => Z2Qc 0) flagged_record) as [ac|e] eqn:Hac.
  - exists ac. split; [reflexivity|]. split.
    + vm_compute in Hac. by injection Hac as <-.
    + rewrite (numeric_dbflags_never_military _ _ _ _ flagged_record ac
                 eq_refl Hac).
      reflexivity.
  - vm_compute in Hac. discriminate.
Defined.
